(** * ahkab/utilities.py: the Newton-Raphson convergence checks

    A shallow embedding of [convergence_check], [voltage_convergence_check],
    [current_convergence_check] and [custom_convergence_check], together with
    the numpy operations they call.

    Numbers.  The specification speaks of real vectors; the program
    computes in binary64.  The checks are therefore embedded twice.  The
    first embedding reads the floats as exact rationals ([Q]) and takes the
    arithmetic without rounding, as the specification does; it carries the
    statements that are equations between runs or that no rounding can
    change.  The second (module [binary64]) computes on the binary64 floats
    of the kernel, with their rounding and overflow and with what numpy does
    on an entry that is not finite; it carries the statements on what a run
    returns.

    Vectors.  The solver hands over numpy column matrices of shape (n, 1):
    the code reads entries as [x[i, 0]] and cuts with [x[:k, 0]].  Such a
    matrix is represented by the list of its n entries.  It has a [shape]
    attribute, so the guard [if not hasattr(x, 'shape')] at the top of the
    two entry points is not taken; a list of one-element rows that goes
    through the guard becomes the same column matrix.

    Exceptions.  Python code raises; the embedding returns in the error monad
    [sum PyExc] ([inl e] is a raised exception, [inr v] a returned value). *)

From Stdlib Require Import QArith Qabs List Bool Lia ZArith.
From ExtLib Require Import Structures.Monad Structures.MonadExc
  Data.Monads.EitherMonad.
From Stdlib Require String PrimFloat FloatOps SpecFloat FloatAxioms.
From Stdlib Require Import Qpower Qfield.
Import ListNotations.
Import MonadNotation.
Local Open Scope monad_scope.
Local Open Scope Q_scope.

(** ** Python exceptions and the error monad *)

Inductive PyExc : Set :=
| ValueError   (* numpy: operands could not be broadcast together *)
| IndexError.  (* numpy: index is out of bounds *)

Definition py : Type -> Type := sum PyExc.

(** The strict comparison [a < b] of two numbers, as a boolean. *)
Definition Qlt_bool (a b : Q) : bool := negb (Qle_bool b a).

(** ** The numpy operations used by the checks *)

Module numpy.

(** A column matrix of shape (n, 1), by its entries. *)
Definition colvec : Type := list Q.

(** [v.shape[0]] *)
Definition shape0 (v : colvec) : nat := length v.

(** [v[i, 0]] for an index [i] produced by [range]: numpy raises
    IndexError when [i] is not below the number of rows. *)
Definition getitem (v : colvec) (i : nat) : py Q :=
  match nth_error v i with
  | Some q => ret q
  | None => raise IndexError
  end.

(** Element-wise application over two lists of the same length. *)
Fixpoint zip_with {A : Type} (f : Q -> Q -> A) (a b : list Q) : list A :=
  match a, b with
  | ai :: a', bi :: b' => f ai bi :: zip_with f a' b'
  | _, _ => []
  end.

(** numpy's broadcasting of a binary element-wise operation over two
    column matrices: the row counts must agree, or one of them must be 1
    (that operand is then repeated); otherwise ValueError. *)
Definition broadcast2 {A : Type} (f : Q -> Q -> A) (a b : colvec)
  : py (list A) :=
  if Nat.eqb (shape0 a) (shape0 b) then ret (zip_with f a b)
  else match a, b with
       | [a0], _ => ret (map (f a0) b)
       | _, [b0] => ret (map (fun ai => f ai b0) a)
       | _, _ => raise ValueError
       end.

(** [a + b] *)
Definition add (a b : colvec) : py colvec := broadcast2 Qplus a b.

(** [numpy.zeros(v.shape)] *)
Definition zeros (n : nat) : colvec := repeat 0 n.

(** [numpy.isclose(a, b, rtol, atol)] on finite entries:
    [absolute(a - b) <= atol + rtol * absolute(b)], element-wise. *)
Definition isclose (a b : colvec) (rtol atol : Q) : py (list bool) :=
  broadcast2 (fun ai bi => Qle_bool (Qabs (ai - bi)) (atol + rtol * Qabs bi))
             a b.

(** [numpy.allclose(a, b, rtol, atol)]: [all(isclose(a, b, rtol, atol))]. *)
Definition allclose (a b : colvec) (rtol atol : Q) : py bool :=
  l <- isclose a b rtol atol ;;
  ret (forallb (fun c : bool => c) l).

(** The bound of a Python slice for an integer [k] on a sequence of
    length [n]: a negative [k] counts from the end, and the result is
    clamped to [0..n]. *)
Definition slice_bound (n : nat) (k : Z) : nat :=
  if (k <? 0)%Z then Z.to_nat (Z.max 0 (Z.of_nat n + k))
  else Nat.min (Z.to_nat k) n.

(** [v[:k, 0]] *)
Definition slice_to (v : colvec) (k : Z) : colvec :=
  firstn (slice_bound (shape0 v) k) v.

(** [v[k:]] *)
Definition slice_from (v : colvec) (k : Z) : colvec :=
  skipn (slice_bound (shape0 v) k) v.

End numpy.

(** ** The process-wide tolerances of the [options] module

    [options] is imported by utilities.py and read, never written, by the
    checks; the four fields they read are passed explicitly. *)

Record Options : Set := mkOptions {
  ver : Q;  (* relative tolerance, voltages *)
  vea : Q;  (* absolute tolerance, voltages *)
  ier : Q;  (* relative tolerance, currents *)
  iea : Q   (* absolute tolerance, currents *)
}.

(** ** custom_convergence_check

    The arguments are numpy matrices, which have a [shape]; the guard
    [if not hasattr(x, 'shape')], which wraps plain sequences with
    [numpy.mat(numpy.array(...))], is therefore skipped. *)

Section CustomCheck.

Variables x dx residuum : numpy.colvec.
Variables er ea eresiduum : Q.
Variable vector_norm : Q -> Q.

(** The test of one element in the [debug] branch. Python's [and] does
    not evaluate [residuum[i, 0]] when the step test fails. *)
Definition debug_test (i : nat) : py bool :=
  dxi <- numpy.getitem dx i ;;
  xi <- numpy.getitem x i ;;
  if Qlt_bool (vector_norm dxi) (er * vector_norm xi + ea)
  then ri <- numpy.getitem residuum i ;;
       ret (Qlt_bool (vector_norm ri) eresiduum)
  else ret false.

(** The [for i in range(x.shape[0])] loop with its [break], over the
    indices still to visit. *)
Fixpoint debug_loop (range : list nat) (all_check_results : list bool)
  : py (list bool) :=
  match range with
  | [] => ret all_check_results
  | i :: range' =>
      c <- debug_test i ;;
      let all_check_results := all_check_results ++ [c] in
      if negb (last all_check_results true)
      then ret all_check_results
      else debug_loop range' all_check_results
  end.

Definition custom_convergence_check (debug : bool)
  : py (bool * list bool) :=
  let all_check_results := [] in
  if negb (Nat.eqb (numpy.shape0 x) 0) then
    if negb debug then
      xdx <- numpy.add x dx ;;
      step <- numpy.allclose x xdx er ea ;;
      ret_ <- (if step
               then numpy.allclose residuum
                      (numpy.zeros (numpy.shape0 residuum)) 0 eresiduum
               else ret false) ;;
      ret (ret_, all_check_results)
    else
      all_check_results <-
        debug_loop (seq 0 (numpy.shape0 x)) all_check_results ;;
      ret (negb (existsb negb all_check_results), all_check_results)
  else
    ret (true, all_check_results).

End CustomCheck.

(** The default of the keyword argument [vector_norm]: [lambda v: abs(v)]. *)
Definition default_vector_norm : Q -> Q := Qabs.

(** ** The two physical specialisations and the entry point *)

Definition voltage_convergence_check (options : Options)
  (x dx residuum : numpy.colvec) (debug : bool) : py (bool * list bool) :=
  custom_convergence_check x dx residuum
    (ver options) (vea options) (iea options) default_vector_norm debug.

Definition current_convergence_check (options : Options)
  (x dx residuum : numpy.colvec) (debug : bool) : py (bool * list bool) :=
  custom_convergence_check x dx residuum
    (ier options) (iea options) (vea options) default_vector_norm debug.

(** [debug] is a parameter of [convergence_check] that its body never
    reads: the two calls leave the callee's [debug] at its default,
    [False]. *)
Definition convergence_check (options : Options)
  (x dx residuum : numpy.colvec) (nv_minus_one : Z) (debug : bool)
  : py (bool * list bool) :=
  '(vcheck, vresults) <-
    voltage_convergence_check options
      (numpy.slice_to x nv_minus_one) (numpy.slice_to dx nv_minus_one)
      (numpy.slice_to residuum nv_minus_one) false ;;
  '(icheck, iresults) <-
    current_convergence_check options
      (numpy.slice_from x nv_minus_one) (numpy.slice_from dx nv_minus_one)
      (numpy.slice_from residuum nv_minus_one) false ;;
  ret (vcheck && icheck, vresults ++ iresults).

(** ** The element tests, index by index

    The properties below are stated with these predicates on an index [i];
    out of range, [nth] reads 0, and every statement bounds [i] by the
    length. *)

Section ElementTests.

Variables x dx residuum : list Q.
Variables er ea eresiduum : Q.

(** Step test against the updated value [x + dx], not strict. *)
Definition step_ok_post (i : nat) : Prop :=
  Qabs (nth i dx 0) <= er * Qabs (nth i x 0 + nth i dx 0) + ea.

(** Absolute test of the residual, not strict. *)
Definition residual_ok (i : nat) : Prop :=
  Qabs (nth i residuum 0) <= eresiduum.

(** Step test against [x] itself, strict. *)
Definition step_ok_pre (i : nat) : Prop :=
  Qabs (nth i dx 0) < er * Qabs (nth i x 0) + ea.

(** Absolute test of the residual, strict. *)
Definition residual_ok_strict (i : nat) : Prop :=
  Qabs (nth i residuum 0) < eresiduum.

(** The element test of the [debug] branch. *)
Definition diag_ok (i : nat) : Prop :=
  step_ok_pre i /\ residual_ok_strict i.

(** The value [debug_test] returns at an index inside all three vectors,
    for any norm. *)
Definition debug_ok_b (vector_norm : Q -> Q) (i : nat) : bool :=
  Qlt_bool (vector_norm (nth i dx 0)) (er * vector_norm (nth i x 0) + ea)
  && Qlt_bool (vector_norm (nth i residuum 0)) eresiduum.

End ElementTests.

(** What the two [allclose] calls of the aggregate branch return when [x]
    and [dx] have one length: every row goes through [isclose]. *)
Definition aggregate_step_b (x dx : list Q) (er ea : Q) : bool :=
  forallb (fun c : bool => c)
    (numpy.zip_with
       (fun ai bi => Qle_bool (Qabs (ai - bi)) (ea + er * Qabs bi))
       x (numpy.zip_with Qplus x dx)).

Definition aggregate_residual_b (residuum : list Q) (eresiduum : Q) : bool :=
  forallb (fun c : bool => c)
    (numpy.zip_with
       (fun ai bi => Qle_bool (Qabs (ai - bi)) (eresiduum + 0 * Qabs bi))
       residuum (numpy.zeros (length residuum))).

(** A list of booleans cut after its first [false]. *)
Fixpoint until_false (l : list bool) : list bool :=
  match l with
  | [] => []
  | c :: l' => c :: (if c then until_false l' else [])
  end.

(** Two option records that agree on every field but [iea]. *)
Definition differ_only_iea (o1 o2 : Options) : Prop :=
  ver o1 = ver o2 /\ vea o1 = vea o2 /\ ier o1 = ier o2.

(** Two option records that agree on every field but [vea]. *)
Definition differ_only_vea (o1 o2 : Options) : Prop :=
  ver o1 = ver o2 /\ ier o1 = ier o2 /\ iea o1 = iea o2.

(** ** The helpers of utilities.py around the convergence checks

    The rest of the file: the matrix helpers, [calc_eps], the
    [combinations] iterator and the two sweep iterators.  The sweep
    iterators are embedded in exact arithmetic, [calc_eps] in binary64.
    [check_file] reads the file system, and [fact] calls [reduce] and
    [xrange], which the module neither defines nor imports; neither has a
    place in this embedding. *)

(** The exceptions these helpers raise, besides numpy's. *)
Inductive PyError : Set :=
| StopIteration
| ZeroDivisionError
| ListIndexError                  (* list index out of range *)
| RecursionLimit                  (* maximum recursion depth exceeded *)
| Exception (msg : String.string).

Module messages.
Import String.
Definition set_too_small : string :=
  "The set has to be bigger than the subset."%string.
Definition size_not_positive : string :=
  "The size of the subset has to be positive."%string.
End messages.

(** *** Matrices of any shape

    A numpy matrix with its shape [(n_row, n_col)] and its rows.  The shape
    is kept beside the rows because a matrix without rows still has a
    column count. *)

Module ndarray.

Record matrix : Type := mkMatrix {
  n_row : nat;
  n_col : nat;
  rows : list (list Q)
}.

(** The rows agree with the shape. *)
Definition wf (m : matrix) : Prop :=
  length (rows m) = n_row m
  /\ Forall (fun r : list Q => length r = n_col m) (rows m).

(** [m[i, j]], read as 0 outside the matrix. *)
Definition entry (m : matrix) (i j : nat) : Q :=
  nth j (nth i (rows m) []) 0.

(** [numpy.mat(numpy.zeros((r, c)))] *)
Definition zeros (r c : nat) : matrix :=
  mkMatrix r c (repeat (repeat 0 c) r).

(** The start and the length of the range a slice [lo:hi] selects on an
    axis of [n] items; an omitted bound is [None]. *)
Definition slice_range (n : nat) (lo hi : option Z) : nat * nat :=
  let a := match lo with
           | Some k => numpy.slice_bound n k
           | None => 0%nat
           end in
  let b := match hi with
           | Some k => numpy.slice_bound n k
           | None => n
           end in
  (a, (b - a)%nat).

Definition slice_list {A : Type} (range : nat * nat) (l : list A) : list A :=
  firstn (snd range) (skipn (fst range) l).

(** [m[r0:r1, c0:c1]] *)
Definition getslice (m : matrix) (r0 r1 c0 c1 : option Z) : matrix :=
  let rr := slice_range (n_row m) r0 r1 in
  let cr := slice_range (n_col m) c0 c1 in
  mkMatrix (snd rr) (snd cr)
    (map (slice_list cr) (slice_list rr (rows m))).

(** [numpy.hstack((a, b))], which is [numpy.concatenate((a, b), axis=1)]:
    the row counts must agree. *)
Definition hstack (a b : matrix) : py matrix :=
  if Nat.eqb (n_row a) (n_row b)
  then ret (mkMatrix (n_row a) (n_col a + n_col b)
              (map (fun p : list Q * list Q => fst p ++ snd p)
                 (combine (rows a) (rows b))))
  else raise ValueError.

(** [numpy.vstack((a, b))], which is [numpy.concatenate((a, b), axis=0)]:
    the column counts must agree. *)
Definition vstack (a b : matrix) : py matrix :=
  if Nat.eqb (n_col a) (n_col b)
  then ret (mkMatrix (n_row a + n_row b) (n_col a) (rows a ++ rows b))
  else raise ValueError.

End ndarray.

Import ndarray.

Definition expand_matrix (matrix : ndarray.matrix) (add_a_row add_a_col : bool)
  : py ndarray.matrix :=
  let '(n_row, n_col) := (ndarray.n_row matrix, ndarray.n_col matrix) in
  matrix <- (if add_a_col
             then let col := ndarray.zeros n_row 1 in
                  ndarray.hstack matrix col
             else ret matrix) ;;
  if add_a_row
  then let n_col := if add_a_col then (n_col + 1)%nat else n_col in
       let row := ndarray.zeros 1 n_col in
       ndarray.vstack matrix row
  else ret matrix.

Definition remove_row_and_col (matrix : ndarray.matrix) (rrow rcol : Z)
  : py (option ndarray.matrix) :=
  if (rrow <? 0)%Z || (rcol <? 0)%Z then ret None
  else
    top <- ndarray.hstack
             (getslice matrix (Some 0%Z) (Some rrow) (Some 0%Z) (Some rcol))
             (getslice matrix (Some 0%Z) (Some rrow) (Some (rcol + 1)%Z) None) ;;
    bottom <- ndarray.hstack
                (getslice matrix (Some (rrow + 1)%Z) None (Some 0%Z) (Some rcol))
                (getslice matrix (Some (rrow + 1)%Z) None
                   (Some (rcol + 1)%Z) None) ;;
    m <- ndarray.vstack top bottom ;;
    ret (Some m).

Definition remove_row (matrix : ndarray.matrix) (rrow : Z)
  : py (option ndarray.matrix) :=
  if (rrow <? 0)%Z || (rrow >? Z.of_nat (ndarray.n_row matrix) - 1)%Z
  then ret None
  else
    m <- ndarray.vstack (getslice matrix None (Some rrow) None None)
           (getslice matrix (Some (rrow + 1)%Z) None None None) ;;
    ret (Some m).

(** The list [l] without its item at index [i]; all of [l] when [i] is
    past the end.  Used to state what the removals return. *)
Definition without {A : Type} (i : nat) (l : list A) : list A :=
  firstn i l ++ skipn (S i) l.

(** *** lin_axis_iterator

    [max] and [min] are floats, read as rationals; [nsteps] and [index]
    are integers.  A method that assigns to [self] returns the object
    after the call beside its outcome. *)

Module lin_axis_iterator.

Record self : Type := mkSelf {
  inc : Q;
  max : Q;
  min : Q;
  index : Z;
  current : Q;
  nsteps : Z
}.

(** [__init__]: the float division raises ZeroDivisionError when
    [nsteps] is 0. *)
Definition __init__ (max min : Q) (nsteps : Z) : PyError + self :=
  if (nsteps =? 0)%Z then inl ZeroDivisionError
  else inr (mkSelf ((max - min) / inject_Z nsteps) max min 0 min nsteps).

(** The attributes [__init__] sets, given the value of [inc]. *)
Definition fresh (inc max min : Q) (nsteps : Z) : self :=
  mkSelf inc max min 0 min nsteps.

Definition next (s : self) : (PyError + Q) * self :=
  if (index s =? 0)%Z then
    (inr (current s),
     mkSelf (inc s) (max s) (min s) (index s + 1) (current s) (nsteps s))
  else if (index s <? nsteps s)%Z then
    let current' := current s + inc s in
    (inr current',
     mkSelf (inc s) (max s) (min s) (index s + 1) current' (nsteps s))
  else (inl StopIteration, s).

Definition __getitem__ (s : self) (i : Z) : option Q :=
  if (i <? nsteps s)%Z then Some (min s + inc s * inject_Z i) else None.

(** The object after [n] calls of [next], and the outcome of the call
    that follows them. *)
Fixpoint after (n : nat) (s : self) : self :=
  match n with
  | O => s
  | S n' => snd (next (after n' s))
  end.

Definition call (n : nat) (s : self) : PyError + Q :=
  fst (next (after n s)).

End lin_axis_iterator.

(** *** log_axis_iterator

    The methods [next] and [__getitem__].  [__init__] computes [inc] with
    [numpy.log10] and a float power, which rationals cannot follow; the
    object is taken as [__init__] leaves it, whatever value [inc] got. *)

Module log_axis_iterator.

Record self : Type := mkSelf {
  inc : Q;
  max : Q;
  min : Q;
  index : Z;
  current : Q;
  nsteps : Z
}.

(** The attributes [__init__] sets, given the value of [inc]. *)
Definition fresh (inc max min : Q) (nsteps : Z) : self :=
  mkSelf inc max min 0 min nsteps.

Definition next (s : self) : (PyError + Q) * self :=
  if (index s >=? nsteps s)%Z then (inl StopIteration, s)
  else
    let current' := current s * inc s in
    (inr current',
     mkSelf (inc s) (max s) (min s) (index s + 1) current' (nsteps s)).

(** [a ** i] for a float [a] and an integer [i]: a zero base with a
    negative exponent raises ZeroDivisionError. *)
Definition float_pow (a : Q) (i : Z) : PyError + Q :=
  if Qeq_bool a 0 && (i <? 0)%Z then inl ZeroDivisionError
  else inr (a ^ i).

Definition __getitem__ (s : self) (i : Z) : PyError + option Q :=
  if (i =? 0)%Z then inr (Some (min s))
  else if (i <? nsteps s)%Z then
    match float_pow (inc s) i with
    | inl e => inl e
    | inr p => inr (Some (min s * p))
    end
  else inr None.

Fixpoint after (n : nat) (s : self) : self :=
  match n with
  | O => s
  | S n' => snd (next (after n' s))
  end.

Definition call (n : nat) (s : self) : PyError + Q :=
  fst (next (after n s)).

End log_axis_iterator.

(** *** combinations

    The iterator object with its attributes; [_sub_iter] is None or the
    iterator over the tail.  [next] calls itself and the [next] of its
    sub-iterator: [depth] is the number of nested calls the interpreter
    still allows, and running out of it is Python's "maximum recursion
    depth exceeded".  A call returns its outcome and the object as the
    call leaves it. *)

Module combinations.

Section Elements.

Context {A : Type}.

#[warnings="-register-all"] Inductive self : Type :=
| mkSelf (L : list A) (k : Z) (_sub_iter : option self) (_i : nat).

Definition __init__ (L : list A) (k : Z) : PyError + self :=
  if (Z.of_nat (length L) <? k)%Z
  then inl (Exception messages.set_too_small)
  else if (k <=? 0)%Z
  then inl (Exception messages.size_not_positive)
  else inr (mkSelf L k None 0).

Fixpoint next (depth : nat) (s : self) {struct depth}
  : (PyError + list A) * self :=
  match depth with
  | O => (inl RecursionLimit, s)
  | S depth' =>
      let '(mkSelf L k _sub_iter _i) := s in
      if (k >? 1)%Z then
        match (match _sub_iter with
               | None => __init__ (skipn (_i + 1) L) (k - 1)
               | Some it => inr it
               end) with
        | inl e => (inl e, s)
        | inr it =>
            match next depth' it with
            | (inr nxt, it') =>
                match nth_error L _i with
                | Some cur => (inr ([cur] ++ nxt), mkSelf L k (Some it') _i)
                | None => (inl ListIndexError, mkSelf L k (Some it') _i)
                end
            | (inl StopIteration, it') =>
                if (Z.of_nat _i >=? Z.of_nat (length L) - k)%Z
                then (inl StopIteration, mkSelf L k (Some it') _i)
                else
                  let _i := (_i + 1)%nat in
                  match __init__ (skipn (_i + 1) L) (k - 1) with
                  | inl e => (inl e, mkSelf L k (Some it') _i)
                  | inr it'' => next depth' (mkSelf L k (Some it'') _i)
                  end
            | (inl e, it') => (inl e, mkSelf L k (Some it') _i)
            end
        end
      else
        if (_i <? length L)%nat then
          match nth_error L _i with
          | Some cur => (inr ([cur] ++ []), mkSelf L k _sub_iter (_i + 1))
          | None => (inl ListIndexError, s)
          end
        else (inl StopIteration, s)
  end.

(** The outcomes of [n] calls of [next] in a row. *)
Fixpoint calls (n depth : nat) (s : self) : list (PyError + list A) :=
  match n with
  | O => []
  | S n' => fst (next depth s) :: calls n' depth (snd (next depth s))
  end.

(** The [k]-combinations of a list, in the order of the indices: the
    reference the iterator is compared with. *)
Fixpoint combs (L : list A) (k : nat) {struct L} : list (list A) :=
  match k, L with
  | O, _ => [[]]
  | S _, [] => []
  | S k', a :: L' => map (cons a) (combs L' k') ++ combs L' k
  end.

(** The number of [k]-subsets of a set of [n] items, by Pascal's rule. *)
Fixpoint binomial (n k : nat) {struct n} : nat :=
  match k, n with
  | O, _ => 1
  | S _, O => 0
  | S k', S n' => binomial n' k' + binomial n' k
  end.

(** [c] keeps some of the items of [L], in their order. *)
Inductive subseq : list A -> list A -> Prop :=
| subseq_nil : subseq [] []
| subseq_skip (a : A) (c L : list A) : subseq c L -> subseq c (a :: L)
| subseq_take (a : A) (c L : list A) : subseq c L -> subseq (a :: c) (a :: L).

(** The combinations an iterator has still to yield. *)
Fixpoint remaining (s : self) : list (list A) :=
  match s with
  | mkSelf L k _sub_iter _i =>
      if (k >? 1)%Z then
        match nth_error L _i with
        | Some cur =>
            map (cons cur)
              (match _sub_iter with
               | Some it => remaining it
               | None => combs (skipn (S _i) L) (Z.to_nat (k - 1))
               end)
        | None => []
        end ++ combs (skipn (S _i) L) (Z.to_nat k)
      else map (fun a => [a]) (skipn _i L)
  end.

Definition get_L (s : self) : list A :=
  match s with mkSelf L _ _ _ => L end.

Definition get_k (s : self) : Z :=
  match s with mkSelf _ k _ _ => k end.

(** The objects a run of [next] calls can reach from [__init__]. *)
Fixpoint reachable (s : self) : Prop :=
  match s with
  | mkSelf L k _sub_iter _i =>
      (1 <= k)%Z
      /\ (if (k >? 1)%Z
          then (Z.of_nat _i + k <= Z.of_nat (length L))%Z
          else (_i <= length L)%nat)
      /\ match _sub_iter with
         | None => True
         | Some it =>
             reachable it
             /\ get_L it = skipn (S _i) L /\ get_k it = (k - 1)%Z
         end
  end.

(** A call that took [s] to [s'] with outcome [out] did what the
    remaining combinations prescribe: it yielded the first of them and
    left the others, or raised StopIteration when none was left. *)
Definition advances (s : self) (out : PyError + list A) (s' : self) : Prop :=
  reachable s' /\ get_L s' = get_L s /\ get_k s' = get_k s
  /\ match remaining s with
     | [] => out = inl StopIteration /\ remaining s' = []
     | c :: rest => out = inr c /\ remaining s' = rest
     end.

(** The sub-iterator, if one is there, has something left to yield. *)
Definition ready (s : self) : Prop :=
  match s with
  | mkSelf _ _ None _ => True
  | mkSelf _ _ (Some it) _ => remaining it <> []
  end.

End Elements.

End combinations.

(** *** calc_eps

    The one function whose result hangs on rounding: it is embedded on
    binary64 floats, which are Python's.  [fuel] bounds the number of
    times the [while] test is evaluated. *)

Fixpoint calc_eps_loop (fuel : nat) (_eps : PrimFloat.float)
  : option PrimFloat.float :=
  match fuel with
  | O => None
  | S fuel' =>
      if PrimFloat.ltb PrimFloat.zero _eps
      then calc_eps_loop fuel' (PrimFloat.div _eps PrimFloat.two)
      else Some _eps
  end.

Definition calc_eps (fuel : nat) : option PrimFloat.float :=
  match calc_eps_loop fuel PrimFloat.one with
  | Some _eps => Some (PrimFloat.mul _eps PrimFloat.two)
  | None => None
  end.

(** ** The convergence checks as they run, in binary64

    The embedding above computes in exact rationals, as the
    specification words its formulas.  The program computes in binary64:
    sums, products and differences are rounded, and a sum can overflow to
    infinity.  This module embeds the same four functions on the floats of
    the kernel, which are binary64 with the rounding of Python and numpy.
    Vectors are again column matrices, given by their entries. *)

Module binary64.

(** The exceptions numpy lets through. *)
Inductive PyExc : Set :=
| ValueError   (* operands could not be broadcast; matrices not aligned *)
| IndexError   (* index is out of bounds *)
| TypeError.   (* boolean index assignment with a 2-dimensional input *)

Definition py : Type -> Type := sum PyExc.

Definition colvec : Type := list PrimFloat.float.

(** [v.shape[0]] *)
Definition shape0 (v : colvec) : nat := length v.

(** [v[i, 0]] for an index [i] produced by [range]. *)
Definition getitem (v : colvec) (i : nat) : py PrimFloat.float :=
  match nth_error v i with
  | Some q => ret q
  | None => raise IndexError
  end.

Fixpoint zip_with {A : Type} (f : PrimFloat.float -> PrimFloat.float -> A)
  (a b : colvec) : list A :=
  match a, b with
  | ai :: a', bi :: b' => f ai bi :: zip_with f a' b'
  | _, _ => []
  end.

(** Broadcasting of an element-wise operation over two column matrices. *)
Definition broadcast2 {A : Type} (f : PrimFloat.float -> PrimFloat.float -> A)
  (a b : colvec) : py (list A) :=
  if Nat.eqb (shape0 a) (shape0 b) then ret (zip_with f a b)
  else match a, b with
       | [a0], _ => ret (map (f a0) b)
       | _, [b0] => ret (map (fun ai => f ai b0) a)
       | _, _ => raise ValueError
       end.

(** [a + b], each sum rounded; an overflowing sum is an infinity. *)
Definition add (a b : colvec) : py colvec := broadcast2 PrimFloat.add a b.

(** [numpy.zeros(v.shape)] *)
Definition zeros (n : nat) : colvec := repeat PrimFloat.zero n.

(** [less_equal(abs(x - y), atol + rtol * abs(y))], the test of
    [numpy.isclose] on one pair of finite entries. *)
Definition within_tol (x y atol rtol : PrimFloat.float) : bool :=
  PrimFloat.leb (PrimFloat.abs (PrimFloat.sub x y))
    (PrimFloat.add atol (PrimFloat.mul rtol (PrimFloat.abs y))).

(** [all(isfinite(v))] *)
Definition all_finite (v : colvec) : bool := forallb PrimFloat.is_finite v.

(** [numpy.isclose(a, b, rtol, atol)] of numpy 1.x with a matrix as first
    operand.  When every entry is finite it is [within_tol] element-wise.
    Otherwise numpy goes on with [x * ones_like(cond)], which for a matrix
    is a matrix product: two columns of more than one row are not aligned
    (ValueError); with one row the product passes and the assignment
    [cond[finite] = ...] of a 2-dimensional value fails (TypeError). *)
Definition isclose (a b : colvec) (rtol atol : PrimFloat.float)
  : py (list bool) :=
  if all_finite a && all_finite b
  then broadcast2 (fun x y => within_tol x y atol rtol) a b
  else
    cond <- broadcast2 (fun _ _ => false) a b ;;
    if Nat.eqb (length cond) 1 then raise TypeError else raise ValueError.

(** [numpy.allclose(a, b, rtol, atol)] *)
Definition allclose (a b : colvec) (rtol atol : PrimFloat.float) : py bool :=
  l <- isclose a b rtol atol ;;
  ret (forallb (fun c : bool => c) l).

Record Options : Set := mkOptions {
  ver : PrimFloat.float;
  vea : PrimFloat.float;
  ier : PrimFloat.float;
  iea : PrimFloat.float
}.

Section CustomCheck.

Variables x dx residuum : colvec.
Variables er ea eresiduum : PrimFloat.float.
Variable vector_norm : PrimFloat.float -> PrimFloat.float.

(** The strict test of one element, [|dx| < er * |x| + ea and
    |residuum| < eresiduum], the product and the sum rounded. *)
Definition step_lt (dxi xi : PrimFloat.float) : bool :=
  PrimFloat.ltb (vector_norm dxi)
    (PrimFloat.add (PrimFloat.mul er (vector_norm xi)) ea).

Definition debug_test (i : nat) : py bool :=
  dxi <- getitem dx i ;;
  xi <- getitem x i ;;
  if step_lt dxi xi
  then ri <- getitem residuum i ;;
       ret (PrimFloat.ltb (vector_norm ri) eresiduum)
  else ret false.

Fixpoint debug_loop (range : list nat) (all_check_results : list bool)
  : py (list bool) :=
  match range with
  | [] => ret all_check_results
  | i :: range' =>
      c <- debug_test i ;;
      let all_check_results := all_check_results ++ [c] in
      if negb (last all_check_results true)
      then ret all_check_results
      else debug_loop range' all_check_results
  end.

Definition custom_convergence_check (debug : bool)
  : py (bool * list bool) :=
  let all_check_results := [] in
  if negb (Nat.eqb (shape0 x) 0) then
    if negb debug then
      xdx <- add x dx ;;
      step <- allclose x xdx er ea ;;
      ret_ <- (if step
               then allclose residuum (zeros (shape0 residuum))
                      PrimFloat.zero eresiduum
               else ret false) ;;
      ret (ret_, all_check_results)
    else
      all_check_results <-
        debug_loop (seq 0 (shape0 x)) all_check_results ;;
      ret (negb (existsb negb all_check_results), all_check_results)
  else
    ret (true, all_check_results).

End CustomCheck.

Definition voltage_convergence_check (options : Options)
  (x dx residuum : colvec) (debug : bool) : py (bool * list bool) :=
  custom_convergence_check x dx residuum
    (ver options) (vea options) (iea options) PrimFloat.abs debug.

Definition current_convergence_check (options : Options)
  (x dx residuum : colvec) (debug : bool) : py (bool * list bool) :=
  custom_convergence_check x dx residuum
    (ier options) (iea options) (vea options) PrimFloat.abs debug.

(** [x[:k, 0]] and [x[k:]] *)
Definition slice_to (v : colvec) (k : Z) : colvec :=
  firstn (numpy.slice_bound (shape0 v) k) v.

Definition slice_from (v : colvec) (k : Z) : colvec :=
  skipn (numpy.slice_bound (shape0 v) k) v.

Definition convergence_check (options : Options)
  (x dx residuum : colvec) (nv_minus_one : Z) (debug : bool)
  : py (bool * list bool) :=
  '(vcheck, vresults) <-
    voltage_convergence_check options
      (slice_to x nv_minus_one) (slice_to dx nv_minus_one)
      (slice_to residuum nv_minus_one) false ;;
  '(icheck, iresults) <-
    current_convergence_check options
      (slice_from x nv_minus_one) (slice_from dx nv_minus_one)
      (slice_from residuum nv_minus_one) false ;;
  ret (vcheck && icheck, vresults ++ iresults).

(** What the two [allclose] calls of the aggregate branch return on
    finite entries when [x] and [dx] have one length. *)
Definition aggregate_step_b (x dx : colvec) (er ea : PrimFloat.float) : bool :=
  forallb (fun c : bool => c)
    (zip_with (fun a b => within_tol a b ea er)
       x (zip_with PrimFloat.add x dx)).

Definition aggregate_residual_b (residuum : colvec)
  (eresiduum : PrimFloat.float) : bool :=
  forallb (fun c : bool => c)
    (zip_with (fun a b => within_tol a b eresiduum PrimFloat.zero)
       residuum (zeros (length residuum))).

(** The step test of the aggregate branch at index [i]:
    [|x[i] - (x[i] + dx[i])| <= ea + er * |x[i] + dx[i]|], every operation
    rounded. *)
Definition step_close (x dx : colvec) (er ea : PrimFloat.float) (i : nat)
  : bool :=
  within_tol (nth i x PrimFloat.zero)
    (PrimFloat.add (nth i x PrimFloat.zero) (nth i dx PrimFloat.zero)) ea er.

(** The residual test of the aggregate branch at index [i]:
    [|residuum[i]| <= eresiduum]. *)
Definition residual_close (residuum : colvec) (eresiduum : PrimFloat.float)
  (i : nat) : bool :=
  PrimFloat.leb (PrimFloat.abs (nth i residuum PrimFloat.zero)) eresiduum.

(** The element test of the [debug] branch at index [i], both comparisons
    strict. *)
Definition debug_ok (vector_norm : PrimFloat.float -> PrimFloat.float)
  (x dx residuum : colvec) (er ea eresiduum : PrimFloat.float) (i : nat)
  : bool :=
  step_lt er ea vector_norm (nth i dx PrimFloat.zero) (nth i x PrimFloat.zero)
  && PrimFloat.ltb (vector_norm (nth i residuum PrimFloat.zero)) eresiduum.

(** The step test of the branch selected by [debug]. *)
Definition step_test (debug : bool) (x dx : colvec) (er ea : PrimFloat.float)
  (i : nat) : bool :=
  if debug
  then step_lt er ea PrimFloat.abs
         (nth i dx PrimFloat.zero) (nth i x PrimFloat.zero)
  else step_close x dx er ea i.

(** No rounded sum [x[i] + dx[i]] has overflowed. *)
Definition sums_finite (x dx : colvec) : bool :=
  all_finite (zip_with PrimFloat.add x dx).

(** Two option records that agree on every field but [iea]. *)
Definition differ_only_iea (o1 o2 : Options) : Prop :=
  ver o1 = ver o2 /\ vea o1 = vea o2 /\ ier o1 = ier o2.

(** Two option records that agree on every field but [vea]. *)
Definition differ_only_vea (o1 o2 : Options) : Prop :=
  ver o1 = ver o2 /\ ier o1 = ier o2 /\ iea o1 = iea o2.

(** The exact value of a finite float. *)
Definition to_Q (f : PrimFloat.float) : Q :=
  match FloatOps.Prim2SF f with
  | SpecFloat.S754_finite s m e =>
      inject_Z (if s then Z.neg m else Z.pos m) * Qpower 2 e
  | _ => 0
  end.

(** Floats that the runs below use. *)
Module constants.
Import PrimFloat.
Definition half : float := 0.5%float.
Definition one_and_half : float := 1.5%float.
Definition three : float := 3%float.
Definition two : float := 2%float.
Definition minus_one : float := (-1)%float.
Definition two_pow_53 : float := 0x1p53%float.
Definition two_pow_1023 : float := 0x1p1023%float.
Definition one_plus_ulp : float := 0x1.0000000000001p0%float.
Definition one_plus_two_ulp : float := 0x1.0000000000002p0%float.
End constants.

(** Inputs that the runs below use. *)
Module sample.
Definition options : Options :=
  mkOptions constants.half constants.half constants.half constants.half.
Definition x : colvec := [PrimFloat.two; PrimFloat.one; PrimFloat.two].
Definition dx : colvec := [PrimFloat.zero; PrimFloat.two; PrimFloat.zero].
Definition residuum : colvec :=
  [PrimFloat.zero; PrimFloat.zero; PrimFloat.zero].
End sample.

End binary64.

(** ** Runs on concrete inputs *)

Definition opts0 : Options := mkOptions (1#1000) (1#1000000) (1#1000) (1#1000000).

Example run_voltage_two :
  voltage_convergence_check opts0 [5; 5] [1#1000000000; 1#1000000000] [0; 0] false
  = inr (true, []).
Proof. vm_compute. reflexivity. Qed.

Example run_evaluate_fail :
  convergence_check opts0 [5] [1] [0] 1 false = inr (false, []).
Proof. vm_compute. reflexivity. Qed.

(** The entry point with [debug] true still returns an empty detail list,
    where the voltage check called with [debug] true lists its tests. *)
Example run_evaluate_debug_ignored :
  convergence_check opts0 [5] [1] [0] 1 true = inr (false, [])
  /\ voltage_convergence_check opts0 [5] [1] [0] true = inr (false, [false]).
Proof. split; vm_compute; reflexivity. Qed.

(** A partition index beyond the end is clamped by the slice. *)
Example run_slice_clamped :
  numpy.slice_to [1; 2; 3] 7 = [1; 2; 3]
  /\ numpy.slice_from [1; 2; 3] 7 = []
  /\ numpy.slice_to [1; 2; 3] (-1) = [1; 2]
  /\ numpy.slice_from [1; 2; 3] (-1) = [3]
  /\ numpy.slice_to [1; 2; 3] (-9) = []
  /\ numpy.slice_from [1; 2; 3] (-9) = [1; 2; 3].
Proof. repeat split. Qed.

(** Broadcasting repeats an operand with one row and rejects other
    mismatches. *)
Example run_broadcast :
  numpy.add [1; 2; 3] [10] = inr [11; 12; 13]
  /\ numpy.add [1; 2; 3] [10; 20] = inl ValueError
  /\ numpy.add [1] [] = inr [].
Proof. repeat split. Qed.

(** After the first failing element nothing more is read: the step test
    fails at index 0, so neither [residuum[0, 0]] nor any later row is
    looked up, although [dx] and [residuum] are too short for them. *)
Example run_debug_stops_reading :
  custom_convergence_check [1; 1; 1] [5] [] (1#10) (1#10) (1#10)
    default_vector_norm true = inr (false, [false])
  /\ custom_convergence_check [1; 1; 1] [0] [0; 0; 0] (1#10) (1#10) (1#10)
       default_vector_norm true = inl IndexError.
Proof. split; vm_compute; reflexivity. Qed.

Example run_debug_break :
  custom_convergence_check [1; 1; 1] [0; 5; 0] [0; 0; 0] (1#10) (1#10) (1#10)
    default_vector_norm true = inr (false, [true; false]).
Proof. vm_compute. reflexivity. Qed.

(** ** Helper lemmas: numbers *)

Lemma Qlt_bool_iff (a b : Q) : Qlt_bool a b = true <-> a < b.
Proof.
  unfold Qlt_bool. rewrite negb_true_iff. split.
  - intros H. apply Qnot_le_lt. intros Hle.
    apply Qle_bool_iff in Hle. congruence.
  - intros H. destruct (Qle_bool b a) eqn:E; [| reflexivity].
    apply Qle_bool_iff in E. exfalso. revert E. now apply Qlt_not_le.
Qed.

Lemma Qle_bool_mono (a b b' : Q) :
  b <= b' -> Qle_bool a b = true -> Qle_bool a b' = true.
Proof.
  rewrite !Qle_bool_iff. intros Hb Ha. now apply Qle_trans with b.
Qed.

Lemma Qlt_bool_mono (a b b' : Q) :
  b <= b' -> Qlt_bool a b = true -> Qlt_bool a b' = true.
Proof.
  rewrite !Qlt_bool_iff. intros Hb Ha. now apply Qlt_le_trans with b.
Qed.

(** What [isclose] computes on the pair [(x, x + dx)]. *)
Lemma isclose_step_iff (rtol atol xi dxi : Q) :
  Qle_bool (Qabs (xi - (xi + dxi))) (atol + rtol * Qabs (xi + dxi)) = true
  <-> Qabs dxi <= rtol * Qabs (xi + dxi) + atol.
Proof.
  rewrite Qle_bool_iff.
  assert (E1 : Qabs (xi - (xi + dxi)) == Qabs dxi).
  { rewrite <- (Qabs_opp dxi). apply Qabs_wd. ring. }
  assert (E2 : atol + rtol * Qabs (xi + dxi) == rtol * Qabs (xi + dxi) + atol)
    by ring.
  now rewrite E1, E2.
Qed.

(** What [isclose] computes on the pair [(residuum, 0)] with [rtol = 0]. *)
Lemma isclose_zero_iff (atol ri : Q) :
  Qle_bool (Qabs (ri - 0)) (atol + 0 * Qabs 0) = true <-> Qabs ri <= atol.
Proof.
  rewrite Qle_bool_iff.
  assert (E1 : Qabs (ri - 0) == Qabs ri) by (apply Qabs_wd; ring).
  assert (E2 : atol + 0 * Qabs 0 == atol) by ring.
  now rewrite E1, E2.
Qed.


(** ** Helper lemmas: the numpy operations on vectors of one length *)

Section ZipWith.

Context {A : Type} (f : Q -> Q -> A).

Lemma zip_with_length (a b : list Q) :
  length a = length b -> length (numpy.zip_with f a b) = length a.
Proof.
  revert b. induction a as [| ai a IH]; intros [| bi b] H; simpl in *;
    try discriminate; auto.
Qed.

Lemma zip_with_nth (a b : list Q) (i : nat) (d : A) :
  length a = length b -> (i < length a)%nat ->
  nth i (numpy.zip_with f a b) d = f (nth i a 0) (nth i b 0).
Proof.
  revert b i. induction a as [| ai a IH]; intros [| bi b] i H Hi;
    simpl in *; try discriminate; try lia.
  destruct i as [| i]; [reflexivity |]. apply IH; lia.
Qed.

Lemma broadcast2_same_length (a b : list Q) :
  length a = length b ->
  numpy.broadcast2 f a b = inr (numpy.zip_with f a b).
Proof.
  intros H. unfold numpy.broadcast2, numpy.shape0.
  rewrite H, Nat.eqb_refl. reflexivity.
Qed.

(** Broadcasting only ever fails with ValueError. *)
Lemma broadcast2_error (a b : list Q) (e : PyExc) :
  numpy.broadcast2 f a b = inl e ->
  e = ValueError /\ length a <> length b.
Proof.
  unfold numpy.broadcast2, numpy.shape0.
  destruct (Nat.eqb_spec (length a) (length b)) as [E | E];
    [discriminate |].
  destruct a as [| a0 [| a1 a]]; destruct b as [| b0 [| b1 b]];
    simpl; intros H; try discriminate; inversion H; auto.
Qed.

End ZipWith.

Lemma forallb_zip_with_iff (f : Q -> Q -> bool) (a b : list Q) :
  length a = length b ->
  forallb (fun c : bool => c) (numpy.zip_with f a b) = true
  <-> (forall i, (i < length a)%nat -> f (nth i a 0) (nth i b 0) = true).
Proof.
  revert b. induction a as [| ai a IH]; intros [| bi b] H; simpl in *;
    try discriminate.
  - split; [intros _ i Hi; lia | reflexivity].
  - rewrite andb_true_iff, IH by lia. split.
    + intros [H0 Hs] [| i] Hi; [exact H0 | apply Hs; lia].
    + intros Hall. split; [apply (Hall 0%nat); lia |].
      intros i Hi. apply (Hall (S i)). lia.
Qed.

Lemma allclose_same_length (a b : list Q) (rtol atol : Q) :
  length a = length b ->
  numpy.allclose a b rtol atol
  = inr (forallb (fun c : bool => c)
           (numpy.zip_with
              (fun ai bi => Qle_bool (Qabs (ai - bi)) (atol + rtol * Qabs bi))
              a b)).
Proof.
  intros H. unfold numpy.allclose, numpy.isclose.
  rewrite broadcast2_same_length by exact H. reflexivity.
Qed.

Lemma zeros_length (n : nat) : length (numpy.zeros n) = n.
Proof. apply repeat_length. Qed.

Lemma zeros_nth (n i : nat) : nth i (numpy.zeros n) 0 = 0.
Proof. apply nth_repeat. Qed.

(** ** Helper lemmas: the aggregate branch *)

Section Aggregate.

Variables x dx residuum : list Q.
Variables er ea eresiduum : Q.
Variable vector_norm : Q -> Q.

Hypothesis x_nonempty : x <> [].
Hypothesis dx_length : length dx = length x.

(** The aggregate branch returns the conjunction of the two [allclose]
    calls and leaves the detail list empty; the length of [residuum]
    plays no part. *)
Lemma aggregate_returns :
  custom_convergence_check x dx residuum er ea eresiduum vector_norm false
  = inr (aggregate_step_b x dx er ea
         && aggregate_residual_b residuum eresiduum, []).
Proof.
  unfold custom_convergence_check, numpy.add, numpy.shape0.
  assert (Hn : negb (length x =? 0)%nat = true)
    by (destruct x; [congruence | reflexivity]).
  rewrite Hn. cbn [negb].
  rewrite broadcast2_same_length by (symmetry; exact dx_length).
  cbn [bind Monad_either].
  rewrite allclose_same_length
    by (rewrite zip_with_length; auto).
  cbn [bind Monad_either].
  unfold aggregate_step_b, aggregate_residual_b.
  match goal with
  | |- context [if ?c then _ else _] => destruct c
  end; cbn [andb].
  - rewrite allclose_same_length by (rewrite zeros_length; reflexivity).
    reflexivity.
  - reflexivity.
Qed.

Lemma step_b_iff :
  aggregate_step_b x dx er ea = true <->
  (forall i, (i < length x)%nat -> step_ok_post x dx er ea i).
Proof.
  unfold aggregate_step_b. rewrite forallb_zip_with_iff
    by (rewrite zip_with_length; auto).
  split; intros H i Hi; specialize (H i Hi).
  - rewrite zip_with_nth in H by auto.
    apply isclose_step_iff in H. exact H.
  - rewrite zip_with_nth by auto.
    apply isclose_step_iff. exact H.
Qed.

Lemma residual_b_iff :
  aggregate_residual_b residuum eresiduum = true <->
  (forall i, (i < length residuum)%nat -> residual_ok residuum eresiduum i).
Proof.
  unfold aggregate_residual_b. rewrite forallb_zip_with_iff
    by (rewrite zeros_length; reflexivity).
  split; intros H i Hi; specialize (H i Hi).
  - rewrite zeros_nth in H. apply isclose_zero_iff in H. exact H.
  - rewrite zeros_nth. apply isclose_zero_iff. exact H.
Qed.

End Aggregate.

(** ** Helper lemmas: lists cut after the first [false] *)

Lemma until_false_all (f : nat -> bool) (m s : nat) :
  (forall i, (s <= i < s + m)%nat -> f i = true) ->
  until_false (map f (seq s m)) = repeat true m.
Proof.
  revert s. induction m as [| m IH]; intros s H; [reflexivity |].
  cbn [seq map until_false repeat].
  rewrite (H s) by lia. f_equal. apply IH. intros i Hi. apply H. lia.
Qed.

Lemma until_false_first (f : nat -> bool) (m s k : nat) :
  (s <= k < s + m)%nat ->
  (forall i, (s <= i < k)%nat -> f i = true) ->
  f k = false ->
  until_false (map f (seq s m)) = repeat true (k - s) ++ [false].
Proof.
  revert s. induction m as [| m IH]; intros s Hk Hbefore Hat; [lia |].
  cbn [seq map until_false].
  destruct (Nat.eq_dec k s) as [-> | Hne].
  - rewrite Hat, Nat.sub_diag. reflexivity.
  - rewrite (Hbefore s) by lia.
    replace (k - s)%nat with (S (k - S s)) by lia.
    cbn [repeat app]. f_equal. apply IH; [lia | | exact Hat].
    intros i Hi. apply Hbefore. lia.
Qed.

(** No [false] survives the cut exactly when the list had none. *)
Lemma until_false_existsb (l : list bool) :
  existsb negb (until_false l) = existsb negb l.
Proof.
  induction l as [| c l IH]; [reflexivity |].
  destruct c; cbn; [exact IH | reflexivity].
Qed.

Lemma existsb_negb_false_iff (l : list bool) :
  negb (existsb negb l) = true <-> ~ In false l.
Proof.
  rewrite negb_true_iff. split.
  - intros H Hin. assert (E : existsb negb l = true)
      by (apply existsb_exists; exists false; split; [exact Hin | reflexivity]).
    congruence.
  - intros H. destruct (existsb negb l) eqn:E; [| reflexivity].
    apply existsb_exists in E. destruct E as [c [Hin Hc]].
    destruct c; [discriminate | contradiction].
Qed.

Lemma existsb_negb_map_false_iff (f : nat -> bool) (m : nat) :
  negb (existsb negb (map f (seq 0 m))) = true
  <-> (forall i, (i < m)%nat -> f i = true).
Proof.
  rewrite existsb_negb_false_iff. split.
  - intros H i Hi. destruct (f i) eqn:E; [reflexivity |].
    exfalso. apply H. apply in_map_iff. exists i. split; [exact E |].
    apply in_seq. lia.
  - intros H Hin. apply in_map_iff in Hin. destruct Hin as [i [E Hi]].
    apply in_seq in Hi. rewrite H in E by lia. discriminate.
Qed.

(** ** Helper lemmas: the debug branch *)

Lemma getitem_in_range (v : list Q) (i : nat) :
  (i < length v)%nat -> numpy.getitem v i = inr (nth i v 0).
Proof.
  intros H. unfold numpy.getitem.
  rewrite (nth_error_nth' v 0 H). reflexivity.
Qed.

Section Debug.

Variables x dx residuum : list Q.
Variables er ea eresiduum : Q.
Variable vector_norm : Q -> Q.

Hypothesis dx_length : length dx = length x.
Hypothesis residuum_length : length residuum = length x.

Lemma debug_test_in_range (i : nat) :
  (i < length x)%nat ->
  debug_test x dx residuum er ea eresiduum vector_norm i
  = inr (debug_ok_b x dx residuum er ea eresiduum vector_norm i).
Proof.
  intros Hi. unfold debug_test, debug_ok_b.
  rewrite !getitem_in_range by lia. cbn [bind Monad_either].
  destruct (Qlt_bool _ _); reflexivity.
Qed.

Lemma debug_loop_returns (range : list nat) (acc : list bool) :
  (forall i, In i range -> (i < length x)%nat) ->
  debug_loop x dx residuum er ea eresiduum vector_norm range acc
  = inr (acc ++ until_false
                  (map (debug_ok_b x dx residuum er ea eresiduum vector_norm)
                       range)).
Proof.
  revert acc. induction range as [| i range IH]; intros acc Hin.
  - cbn. now rewrite app_nil_r.
  - cbn [debug_loop map until_false].
    rewrite debug_test_in_range by (apply Hin; now left).
    cbn [bind Monad_either]. rewrite last_last.
    destruct (debug_ok_b x dx residuum er ea eresiduum vector_norm i);
      cbn [negb].
    + rewrite IH by (intros j Hj; apply Hin; now right).
      now rewrite <- app_assoc.
    + reflexivity.
Qed.

(** The debug branch returns the element tests up to and including the
    first failing one, and the verdict says whether one failed. *)
Lemma debug_returns :
  x <> [] ->
  custom_convergence_check x dx residuum er ea eresiduum vector_norm true
  = inr (negb (existsb negb
                 (map (debug_ok_b x dx residuum er ea eresiduum vector_norm)
                      (seq 0 (length x)))),
         until_false
           (map (debug_ok_b x dx residuum er ea eresiduum vector_norm)
                (seq 0 (length x)))).
Proof.
  intros Hx. unfold custom_convergence_check, numpy.shape0.
  assert (Hn : negb (length x =? 0)%nat = true)
    by (destruct x; [congruence | reflexivity]).
  rewrite Hn. cbn [negb].
  rewrite debug_loop_returns by (intros i Hi; apply in_seq in Hi; lia).
  cbn [bind Monad_either app]. now rewrite until_false_existsb.
Qed.

End Debug.

Lemma debug_ok_b_iff (x dx residuum : list Q) (er ea eresiduum : Q) (i : nat) :
  debug_ok_b x dx residuum er ea eresiduum default_vector_norm i = true
  <-> diag_ok x dx residuum er ea eresiduum i.
Proof.
  unfold debug_ok_b, diag_ok, step_ok_pre, residual_ok_strict,
    default_vector_norm.
  now rewrite andb_true_iff, !Qlt_bool_iff.
Qed.

Lemma custom_check_empty (dx residuum : list Q) (er ea eresiduum : Q)
  (vector_norm : Q -> Q) (debug : bool) :
  custom_convergence_check [] dx residuum er ea eresiduum vector_norm debug
  = inr (true, []).
Proof. reflexivity. Qed.

(** The aggregate branch in one statement; [residuum] may have any length. *)
Lemma aggregate_spec (x dx residuum : list Q) (er ea eresiduum : Q)
  (vector_norm : Q -> Q) :
  x <> [] -> length dx = length x ->
  exists b : bool,
    custom_convergence_check x dx residuum er ea eresiduum vector_norm false
    = inr (b, [])
    /\ (b = true <->
        (forall i, (i < length x)%nat -> step_ok_post x dx er ea i)
        /\ (forall i, (i < length residuum)%nat ->
                      residual_ok residuum eresiduum i)).
Proof.
  intros Hx Hdx. eexists. split.
  - apply aggregate_returns; assumption.
  - rewrite andb_true_iff, step_b_iff, residual_b_iff by exact Hdx.
    reflexivity.
Qed.


Lemma until_false_length_le (l : list bool) :
  (length (until_false l) <= length l)%nat.
Proof.
  induction l as [| c l IH]; [apply Nat.le_refl |].
  destruct c; cbn; lia.
Qed.

Lemma until_false_nth (l : list bool) (i : nat) (d : bool) :
  (i < length (until_false l))%nat -> nth i (until_false l) d = nth i l d.
Proof.
  revert i. induction l as [| c l IH]; intros i Hi; [reflexivity |].
  destruct i as [| i]; [reflexivity |].
  destruct c; cbn in *; [apply IH; lia | lia].
Qed.

Lemma map_seq_nth (f : nat -> bool) (m i : nat) (d : bool) :
  (i < m)%nat -> nth i (map f (seq 0 m)) d = f i.
Proof.
  intros Hi. rewrite (nth_indep _ d (f 0%nat)) by (now rewrite length_map, length_seq).
  rewrite map_nth, seq_nth by exact Hi. reflexivity.
Qed.

(** ** Runs in binary64 *)

(** The sum [2^53 + 1] rounds back to [2^53], and the square of
    [1 + 2^-52] rounds down to [1 + 2^-51]. *)
Example b64_run_rounding :
  PrimFloat.add binary64.constants.two_pow_53 PrimFloat.one
  = binary64.constants.two_pow_53
  /\ PrimFloat.mul binary64.constants.one_plus_ulp
       binary64.constants.one_plus_ulp
     = binary64.constants.one_plus_two_ulp.
Proof. split; reflexivity. Qed.

(** A sum that overflows is an infinity; the [debug] branch, which adds
    nothing to [x], still returns on the same vectors. *)
Example b64_run_overflow :
  PrimFloat.is_finite
    (PrimFloat.add binary64.constants.two_pow_1023
       binary64.constants.two_pow_1023) = false
  /\ binary64.custom_convergence_check
       [binary64.constants.two_pow_1023; binary64.constants.two_pow_1023]
       [binary64.constants.two_pow_1023; binary64.constants.two_pow_1023]
       [PrimFloat.zero; PrimFloat.zero]
       PrimFloat.one PrimFloat.one PrimFloat.one PrimFloat.abs true
     = inr (false, [false]).
Proof. split; reflexivity. Qed.

(** The entry point with [debug] true still returns an empty detail
    list. *)
Example b64_run_entry_point :
  binary64.convergence_check binary64.sample.options binary64.sample.x
    binary64.sample.dx binary64.sample.residuum 1 true = inr (true, [])
  /\ binary64.convergence_check
       (binary64.mkOptions PrimFloat.zero binary64.constants.half
          PrimFloat.zero binary64.constants.half)
       binary64.sample.x binary64.sample.dx binary64.sample.residuum 1 true
     = inr (false, []).
Proof. split; reflexivity. Qed.

(** ** Helper lemmas: binary64 arithmetic

    The kernel's floats come with the IEEE 754 specification of each
    operation ([FloatAxioms]); these three facts are read off it. *)

(** [r - 0.0] is [r], for every float. *)
Lemma b64_sub_zero (r : PrimFloat.float) :
  PrimFloat.sub r PrimFloat.zero = r.
Proof.
  apply FloatAxioms.Prim2SF_inj. rewrite FloatAxioms.sub_spec.
  change (FloatOps.Prim2SF PrimFloat.zero) with (SpecFloat.S754_zero false).
  destruct (FloatOps.Prim2SF r) as [[|] | [|] | | s m e]; reflexivity.
Qed.

(** [e + 0.0] compares as [e] does: only the sign of a zero can change. *)
Lemma b64_leb_add_zero (a e : PrimFloat.float) :
  PrimFloat.leb a (PrimFloat.add e PrimFloat.zero) = PrimFloat.leb a e.
Proof.
  rewrite !FloatAxioms.leb_spec, FloatAxioms.add_spec.
  change (FloatOps.Prim2SF PrimFloat.zero) with (SpecFloat.S754_zero false).
  destruct (FloatOps.Prim2SF e) as [[|] | [|] | | s m e']; reflexivity.
Qed.

(** What [isclose] computes on the pair [(residuum, 0)] with [rtol = 0]. *)
Lemma b64_within_tol_zero (r e : PrimFloat.float) :
  binary64.within_tol r PrimFloat.zero e PrimFloat.zero
  = PrimFloat.leb (PrimFloat.abs r) e.
Proof.
  unfold binary64.within_tol. rewrite b64_sub_zero.
  change (PrimFloat.mul PrimFloat.zero (PrimFloat.abs PrimFloat.zero))
    with PrimFloat.zero.
  apply b64_leb_add_zero.
Qed.

(** ** Helper lemmas: the numpy operations in binary64 *)

Section B64ZipWith.

Context {A : Type} (f : PrimFloat.float -> PrimFloat.float -> A).

Lemma b64_zip_with_length (a b : list PrimFloat.float) :
  length a = length b -> length (binary64.zip_with f a b) = length a.
Proof.
  revert b. induction a as [| ai a IH]; intros [| bi b] H; simpl in *;
    try discriminate; auto.
Qed.

Lemma b64_zip_with_nth (a b : list PrimFloat.float) (i : nat) (d : A) :
  length a = length b -> (i < length a)%nat ->
  nth i (binary64.zip_with f a b) d
  = f (nth i a PrimFloat.zero) (nth i b PrimFloat.zero).
Proof.
  revert b i. induction a as [| ai a IH]; intros [| bi b] i H Hi;
    simpl in *; try discriminate; try lia.
  destruct i as [| i]; [reflexivity |]. apply IH; lia.
Qed.

Lemma b64_zip_with_firstn (a b : list PrimFloat.float) (n : nat) :
  binary64.zip_with f (firstn n a) (firstn n b)
  = firstn n (binary64.zip_with f a b).
Proof.
  revert a b. induction n as [| n IH]; intros [| ai a] [| bi b];
    try reflexivity.
  cbn. now rewrite IH.
Qed.

Lemma b64_zip_with_skipn (a b : list PrimFloat.float) (n : nat) :
  length a = length b ->
  binary64.zip_with f (skipn n a) (skipn n b)
  = skipn n (binary64.zip_with f a b).
Proof.
  revert a b. induction n as [| n IH]; intros [| ai a] [| bi b] H;
    try reflexivity; try discriminate.
  cbn. apply IH. cbn in H. lia.
Qed.


Lemma b64_broadcast2_same_length (a b : list PrimFloat.float) :
  length a = length b ->
  binary64.broadcast2 f a b = inr (binary64.zip_with f a b).
Proof.
  intros H. unfold binary64.broadcast2, binary64.shape0.
  rewrite H, Nat.eqb_refl. reflexivity.
Qed.


End B64ZipWith.

Lemma b64_zip_with_ext {A : Type}
  (f g : PrimFloat.float -> PrimFloat.float -> A)
  (a b : list PrimFloat.float) :
  length a = length b ->
  (forall i, (i < length a)%nat ->
     f (nth i a PrimFloat.zero) (nth i b PrimFloat.zero)
     = g (nth i a PrimFloat.zero) (nth i b PrimFloat.zero)) ->
  binary64.zip_with f a b = binary64.zip_with g a b.
Proof.
  revert b. induction a as [| ai a IH]; intros [| bi b] H Hfg;
    try reflexivity; try discriminate.
  cbn. f_equal.
  - apply (Hfg 0%nat). cbn. lia.
  - apply IH; [cbn in H; lia |].
    intros i Hi. apply (Hfg (S i)). cbn. lia.
Qed.

Lemma b64_forallb_zip_with_iff
  (f : PrimFloat.float -> PrimFloat.float -> bool)
  (a b : list PrimFloat.float) :
  length a = length b ->
  forallb (fun c : bool => c) (binary64.zip_with f a b) = true
  <-> (forall i, (i < length a)%nat ->
         f (nth i a PrimFloat.zero) (nth i b PrimFloat.zero) = true).
Proof.
  revert b. induction a as [| ai a IH]; intros [| bi b] H; simpl in *;
    try discriminate.
  - split; [intros _ i Hi; lia | reflexivity].
  - rewrite andb_true_iff, IH by lia. split.
    + intros [H0 Hs] [| i] Hi; [exact H0 | apply Hs; lia].
    + intros Hall. split; [apply (Hall 0%nat); lia |].
      intros i Hi. apply (Hall (S i)). lia.
Qed.

Lemma b64_zeros_length (n : nat) : length (binary64.zeros n) = n.
Proof. apply repeat_length. Qed.

Lemma b64_zeros_nth (n i : nat) :
  nth i (binary64.zeros n) PrimFloat.zero = PrimFloat.zero.
Proof. apply nth_repeat. Qed.

Lemma b64_zeros_finite (n : nat) :
  binary64.all_finite (binary64.zeros n) = true.
Proof. induction n as [| n IH]; [reflexivity | exact IH]. Qed.

Lemma b64_all_finite_firstn (v : list PrimFloat.float) (n : nat) :
  binary64.all_finite v = true -> binary64.all_finite (firstn n v) = true.
Proof.
  unfold binary64.all_finite. revert n.
  induction v as [| a v IH]; intros [| n] H; try reflexivity.
  cbn in *. apply andb_true_iff in H. destruct H as [Ha Hv].
  now rewrite Ha, IH.
Qed.

Lemma b64_all_finite_skipn (v : list PrimFloat.float) (n : nat) :
  binary64.all_finite v = true -> binary64.all_finite (skipn n v) = true.
Proof.
  unfold binary64.all_finite. revert n.
  induction v as [| a v IH]; intros [| n] H; try reflexivity; [exact H |].
  cbn in *. apply andb_true_iff in H. destruct H as [Ha Hv].
  now apply IH.
Qed.

(** On finite entries [allclose] is [isclose]'s test on every row. *)
Lemma b64_allclose_finite (a b : list PrimFloat.float)
  (rtol atol : PrimFloat.float) :
  length a = length b ->
  binary64.all_finite a = true -> binary64.all_finite b = true ->
  binary64.allclose a b rtol atol
  = inr (forallb (fun c : bool => c)
           (binary64.zip_with
              (fun x y => binary64.within_tol x y atol rtol) a b)).
Proof.
  intros H Ha Hb. unfold binary64.allclose, binary64.isclose.
  rewrite Ha, Hb. cbn [andb].
  rewrite b64_broadcast2_same_length by exact H. reflexivity.
Qed.

(** ** Helper lemmas: the aggregate branch in binary64 *)

Lemma b64_nonempty_shape (x : list PrimFloat.float) :
  x <> [] -> negb (binary64.shape0 x =? 0)%nat = true.
Proof. destruct x; [congruence | reflexivity]. Qed.

Lemma b64_custom_check_empty (dx residuum : list PrimFloat.float)
  (er ea eresiduum : PrimFloat.float)
  (vector_norm : PrimFloat.float -> PrimFloat.float) (debug : bool) :
  binary64.custom_convergence_check [] dx residuum er ea eresiduum
    vector_norm debug = inr (true, []).
Proof. reflexivity. Qed.

Section B64Aggregate.

Variables x dx residuum : list PrimFloat.float.
Variables er ea eresiduum : PrimFloat.float.
Variable vector_norm : PrimFloat.float -> PrimFloat.float.

Hypothesis x_nonempty : x <> [].
Hypothesis dx_length : length dx = length x.

(** With finite entries and no overflowing sum, the aggregate branch
    returns the conjunction of the two [allclose] calls and an empty detail
    list; the length of [residuum] plays no part. *)
Lemma b64_aggregate_returns :
  binary64.all_finite x = true -> binary64.sums_finite x dx = true ->
  binary64.all_finite residuum = true ->
  binary64.custom_convergence_check x dx residuum er ea eresiduum
    vector_norm false
  = inr (binary64.aggregate_step_b x dx er ea
         && binary64.aggregate_residual_b residuum eresiduum, []).
Proof.
  intros Hx Hs Hr. unfold binary64.custom_convergence_check, binary64.add.
  rewrite b64_nonempty_shape by exact x_nonempty. cbn [negb].
  rewrite b64_broadcast2_same_length by (symmetry; exact dx_length).
  cbn [bind Monad_either].
  rewrite b64_allclose_finite;
    [| rewrite b64_zip_with_length; auto | exact Hx | exact Hs].
  cbn [bind Monad_either].
  unfold binary64.aggregate_step_b, binary64.aggregate_residual_b,
    binary64.shape0.
  match goal with
  | |- context [if ?c then _ else _] => destruct c
  end; cbn [andb].
  - rewrite b64_allclose_finite;
      [reflexivity | now rewrite b64_zeros_length | exact Hr
      | apply b64_zeros_finite].
  - reflexivity.
Qed.

Lemma b64_step_b_iff :
  binary64.aggregate_step_b x dx er ea = true <->
  (forall i, (i < length x)%nat -> binary64.step_close x dx er ea i = true).
Proof.
  unfold binary64.aggregate_step_b. rewrite b64_forallb_zip_with_iff
    by (rewrite b64_zip_with_length; auto).
  unfold binary64.step_close.
  split; intros H i Hi; specialize (H i Hi).
  - rewrite b64_zip_with_nth in H by auto. exact H.
  - rewrite b64_zip_with_nth by auto. exact H.
Qed.

Lemma b64_residual_b_iff :
  binary64.aggregate_residual_b residuum eresiduum = true <->
  (forall i, (i < length residuum)%nat ->
     binary64.residual_close residuum eresiduum i = true).
Proof.
  unfold binary64.aggregate_residual_b. rewrite b64_forallb_zip_with_iff
    by (now rewrite b64_zeros_length).
  unfold binary64.residual_close.
  split; intros H i Hi; specialize (H i Hi).
  - rewrite b64_zeros_nth, b64_within_tol_zero in H. exact H.
  - rewrite b64_zeros_nth, b64_within_tol_zero. exact H.
Qed.

End B64Aggregate.

(** The aggregate branch in one statement; [residuum] may have any
    length. *)
Lemma b64_aggregate_spec (x dx residuum : list PrimFloat.float)
  (er ea eresiduum : PrimFloat.float)
  (vector_norm : PrimFloat.float -> PrimFloat.float) :
  x <> [] -> length dx = length x ->
  binary64.all_finite x = true -> binary64.sums_finite x dx = true ->
  binary64.all_finite residuum = true ->
  exists b : bool,
    binary64.custom_convergence_check x dx residuum er ea eresiduum
      vector_norm false = inr (b, [])
    /\ (b = true <->
        (forall i, (i < length x)%nat ->
           binary64.step_close x dx er ea i = true)
        /\ (forall i, (i < length residuum)%nat ->
              binary64.residual_close residuum eresiduum i = true)).
Proof.
  intros Hx Hdx Hfx Hfs Hfr. eexists. split.
  - apply b64_aggregate_returns; assumption.
  - rewrite andb_true_iff, b64_step_b_iff, b64_residual_b_iff by exact Hdx.
    reflexivity.
Qed.

(** The same on vectors of one length, the empty one included, index by
    index. *)
Lemma b64_aggregate_iff (x dx residuum : list PrimFloat.float)
  (er ea eresiduum : PrimFloat.float)
  (vector_norm : PrimFloat.float -> PrimFloat.float) :
  length dx = length x -> length residuum = length x ->
  binary64.all_finite x = true -> binary64.sums_finite x dx = true ->
  binary64.all_finite residuum = true ->
  exists b : bool,
    binary64.custom_convergence_check x dx residuum er ea eresiduum
      vector_norm false = inr (b, [])
    /\ (b = true <->
        forall i, (i < length x)%nat ->
          binary64.step_close x dx er ea i = true
          /\ binary64.residual_close residuum eresiduum i = true).
Proof.
  intros Hdx Hr Hfx Hfs Hfr. destruct x as [| x0 xs] eqn:Ex.
  - exists true. split; [reflexivity |].
    split; [intros _ i Hi; cbn in Hi; lia | reflexivity].
  - rewrite <- Ex in *. assert (Hx : x <> []) by (rewrite Ex; discriminate).
    destruct (b64_aggregate_spec x dx residuum er ea eresiduum vector_norm
                Hx Hdx Hfx Hfs Hfr) as [b [Hrun Hb]].
    exists b. split; [exact Hrun |]. rewrite Hb, Hr. split.
    + intros [Hs Hres] i Hi. split; [now apply Hs | now apply Hres].
    + intros H. split; intros i Hi; now apply H.
Qed.


(** ** Helper lemmas: the debug branch in binary64 *)

Lemma b64_getitem_in_range (v : list PrimFloat.float) (i : nat) :
  (i < length v)%nat ->
  binary64.getitem v i = inr (nth i v PrimFloat.zero).
Proof.
  intros H. unfold binary64.getitem.
  rewrite (nth_error_nth' v PrimFloat.zero H). reflexivity.
Qed.

(** Two loops whose element tests agree on the indices they visit give
    the same outcome. *)
Lemma b64_debug_loop_ext (x1 dx1 r1 x2 dx2 r2 : list PrimFloat.float)
  (er1 ea1 eres1 er2 ea2 eres2 : PrimFloat.float)
  (vector_norm : PrimFloat.float -> PrimFloat.float)
  (range : list nat) (acc : list bool) :
  (forall i, In i range ->
     binary64.debug_test x1 dx1 r1 er1 ea1 eres1 vector_norm i
     = binary64.debug_test x2 dx2 r2 er2 ea2 eres2 vector_norm i) ->
  binary64.debug_loop x1 dx1 r1 er1 ea1 eres1 vector_norm range acc
  = binary64.debug_loop x2 dx2 r2 er2 ea2 eres2 vector_norm range acc.
Proof.
  revert acc. induction range as [| i range IH]; intros acc H;
    [reflexivity |].
  cbn [binary64.debug_loop]. rewrite (H i) by now left.
  destruct (binary64.debug_test x2 dx2 r2 er2 ea2 eres2 vector_norm i)
    as [e | c]; cbn [bind Monad_either]; [reflexivity |].
  destruct (negb (last (acc ++ [c]) true)); [reflexivity |].
  apply IH. intros j Hj. apply H. now right.
Qed.

Section B64Debug.

Variables x dx residuum : list PrimFloat.float.
Variables er ea eresiduum : PrimFloat.float.
Variable vector_norm : PrimFloat.float -> PrimFloat.float.

Hypothesis dx_length : length dx = length x.
Hypothesis residuum_length : length residuum = length x.

Lemma b64_debug_test_in_range (i : nat) :
  (i < length x)%nat ->
  binary64.debug_test x dx residuum er ea eresiduum vector_norm i
  = inr (binary64.debug_ok vector_norm x dx residuum er ea eresiduum i).
Proof.
  intros Hi. unfold binary64.debug_test, binary64.debug_ok.
  rewrite !b64_getitem_in_range by lia. cbn [bind Monad_either].
  destruct (binary64.step_lt _ _ _ _ _); reflexivity.
Qed.

Lemma b64_debug_loop_returns (range : list nat) (acc : list bool) :
  (forall i, In i range -> (i < length x)%nat) ->
  binary64.debug_loop x dx residuum er ea eresiduum vector_norm range acc
  = inr (acc ++ until_false
                  (map (binary64.debug_ok vector_norm x dx residuum
                          er ea eresiduum) range)).
Proof.
  revert acc. induction range as [| i range IH]; intros acc Hin.
  - cbn. now rewrite app_nil_r.
  - cbn [binary64.debug_loop map until_false].
    rewrite b64_debug_test_in_range by (apply Hin; now left).
    cbn [bind Monad_either]. rewrite last_last.
    destruct (binary64.debug_ok vector_norm x dx residuum er ea eresiduum i);
      cbn [negb].
    + rewrite IH by (intros j Hj; apply Hin; now right).
      now rewrite <- app_assoc.
    + reflexivity.
Qed.

(** The debug branch returns the element tests up to and including the
    first failing one, and the verdict says whether one failed. *)
Lemma b64_debug_returns :
  x <> [] ->
  binary64.custom_convergence_check x dx residuum er ea eresiduum
    vector_norm true
  = inr (negb (existsb negb
                 (map (binary64.debug_ok vector_norm x dx residuum
                         er ea eresiduum) (seq 0 (length x)))),
         until_false
           (map (binary64.debug_ok vector_norm x dx residuum
                   er ea eresiduum) (seq 0 (length x)))).
Proof.
  intros Hx. unfold binary64.custom_convergence_check.
  rewrite b64_nonempty_shape by exact Hx. cbn [negb].
  unfold binary64.shape0.
  rewrite b64_debug_loop_returns by (intros i Hi; apply in_seq in Hi; lia).
  cbn [bind Monad_either app]. now rewrite until_false_existsb.
Qed.

End B64Debug.

(** ** The properties of the specification *)

(** C1, as the specification states it, fails on the code: the program
    computes in binary64, and the sum [x + dx] is rounded before
    [allclose] compares it with [x].  At [x = 2^53], [dx = 1] the sum
    rounds back to [x]; under [er = 0], [ea = 0.5] the aggregate branch
    returns true, although [|dx| <= er * |x + dx| + ea] is false on these
    very numbers, and the check in exact arithmetic returns false.  And
    where a sum overflows, as at [x = dx = 2^1023] on two rows, the branch
    returns no pair at all: numpy raises ValueError. *)
Lemma C1_rounded_sum_hides_step :
  (binary64.custom_convergence_check
     [binary64.constants.two_pow_53] [PrimFloat.one] [PrimFloat.zero]
     PrimFloat.zero binary64.constants.half PrimFloat.zero PrimFloat.abs false
   = inr (true, [])
   /\ ~ step_ok_post
          (map binary64.to_Q [binary64.constants.two_pow_53])
          (map binary64.to_Q [PrimFloat.one])
          (binary64.to_Q PrimFloat.zero)
          (binary64.to_Q binary64.constants.half) 0
   /\ custom_convergence_check
        (map binary64.to_Q [binary64.constants.two_pow_53])
        (map binary64.to_Q [PrimFloat.one])
        (map binary64.to_Q [PrimFloat.zero])
        (binary64.to_Q PrimFloat.zero)
        (binary64.to_Q binary64.constants.half)
        (binary64.to_Q PrimFloat.zero) default_vector_norm false
      = inr (false, []))
  /\ binary64.custom_convergence_check
       [binary64.constants.two_pow_1023; binary64.constants.two_pow_1023]
       [binary64.constants.two_pow_1023; binary64.constants.two_pow_1023]
       [PrimFloat.zero; PrimFloat.zero]
       PrimFloat.one PrimFloat.one PrimFloat.one PrimFloat.abs false
     = inl binary64.ValueError.
Proof.
  split; [| reflexivity].
  split; [vm_compute; reflexivity |]. split; [| vm_compute; reflexivity].
  unfold step_ok_post. rewrite <- Qle_bool_iff. vm_compute. discriminate.
Qed.

(** C1, amended: for non-empty binary64 vectors [x], [dx], [residuum] of
    one length whose entries of [x] and [residuum] and whose rounded sums
    [x[i] + dx[i]] are finite, and any tolerances,
    [custom_convergence_check] with [debug] false returns [(b, [])], where
    [b] is true exactly when every index passes
    [|x[i] - (x[i] + dx[i])| <= ea + er * |x[i] + dx[i]|], each operation
    rounded to binary64, and every index passes
    [|residuum[i]| <= eresiduum]: the step test is relative to the updated
    value, the residual test is absolute, the detail list is empty. *)
Theorem C1_aggregate_verdict_rounded (x dx residuum : list PrimFloat.float)
  (er ea eresiduum : PrimFloat.float)
  (vector_norm : PrimFloat.float -> PrimFloat.float) :
  x <> [] -> length dx = length x -> length residuum = length x ->
  binary64.all_finite x = true -> binary64.sums_finite x dx = true ->
  binary64.all_finite residuum = true ->
  exists b : bool,
    binary64.custom_convergence_check x dx residuum er ea eresiduum
      vector_norm false = inr (b, [])
    /\ (b = true <->
        (forall i, (i < length x)%nat ->
           PrimFloat.leb
             (PrimFloat.abs
                (PrimFloat.sub (nth i x PrimFloat.zero)
                   (PrimFloat.add (nth i x PrimFloat.zero)
                      (nth i dx PrimFloat.zero))))
             (PrimFloat.add ea
                (PrimFloat.mul er
                   (PrimFloat.abs
                      (PrimFloat.add (nth i x PrimFloat.zero)
                         (nth i dx PrimFloat.zero))))) = true)
        /\ (forall i, (i < length x)%nat ->
              PrimFloat.leb (PrimFloat.abs (nth i residuum PrimFloat.zero))
                eresiduum = true)).
Proof.
  intros Hx Hdx Hr Hfx Hfs Hfr.
  destruct (b64_aggregate_spec x dx residuum er ea eresiduum vector_norm
              Hx Hdx Hfx Hfs Hfr) as [b [Hrun Hb]].
  exists b. split; [exact Hrun |].
  rewrite Hr in Hb. exact Hb.
Qed.

Lemma C1_aggregate_verdict_rounded_witness :
  exists b : bool,
    binary64.custom_convergence_check
      [PrimFloat.two; PrimFloat.two] [binary64.constants.half; PrimFloat.zero]
      [PrimFloat.zero; PrimFloat.zero]
      PrimFloat.one binary64.constants.half binary64.constants.half
      PrimFloat.abs false = inr (b, [])
    /\ (b = true <->
        (forall i, (i < 2)%nat ->
           PrimFloat.leb
             (PrimFloat.abs
                (PrimFloat.sub (nth i [PrimFloat.two; PrimFloat.two] PrimFloat.zero)
                   (PrimFloat.add
                      (nth i [PrimFloat.two; PrimFloat.two] PrimFloat.zero)
                      (nth i [binary64.constants.half; PrimFloat.zero]
                         PrimFloat.zero))))
             (PrimFloat.add binary64.constants.half
                (PrimFloat.mul PrimFloat.one
                   (PrimFloat.abs
                      (PrimFloat.add
                         (nth i [PrimFloat.two; PrimFloat.two] PrimFloat.zero)
                         (nth i [binary64.constants.half; PrimFloat.zero]
                            PrimFloat.zero))))) = true)
        /\ (forall i, (i < 2)%nat ->
              PrimFloat.leb
                (PrimFloat.abs
                   (nth i [PrimFloat.zero; PrimFloat.zero] PrimFloat.zero))
                binary64.constants.half = true)).
Proof.
  apply (C1_aggregate_verdict_rounded
           [PrimFloat.two; PrimFloat.two]
           [binary64.constants.half; PrimFloat.zero]
           [PrimFloat.zero; PrimFloat.zero]
           PrimFloat.one binary64.constants.half binary64.constants.half
           PrimFloat.abs);
    [discriminate | reflexivity ..].
Defined.

(** C2, as the specification states it, fails on the code: the bound
    [er * |x[i]| + ea] is rounded to binary64 before the strict
    comparison.  At [er = x = 1 + 2^-52], [dx = 1 + 2^-51], [ea = 0] the
    product [(1 + 2^-52)^2] rounds down to [1 + 2^-51], so the code finds
    [|dx| < er * |x| + ea] false and appends False, although the test
    holds on these very numbers and the check in exact arithmetic
    appends True. *)
Lemma C2_rounded_bound_rejects_step :
  binary64.custom_convergence_check
    [binary64.constants.one_plus_ulp] [binary64.constants.one_plus_two_ulp]
    [PrimFloat.zero]
    binary64.constants.one_plus_ulp PrimFloat.zero PrimFloat.one
    PrimFloat.abs true
  = inr (false, [false])
  /\ diag_ok
       (map binary64.to_Q [binary64.constants.one_plus_ulp])
       (map binary64.to_Q [binary64.constants.one_plus_two_ulp])
       (map binary64.to_Q [PrimFloat.zero])
       (binary64.to_Q binary64.constants.one_plus_ulp)
       (binary64.to_Q PrimFloat.zero) (binary64.to_Q PrimFloat.one) 0
  /\ custom_convergence_check
       (map binary64.to_Q [binary64.constants.one_plus_ulp])
       (map binary64.to_Q [binary64.constants.one_plus_two_ulp])
       (map binary64.to_Q [PrimFloat.zero])
       (binary64.to_Q binary64.constants.one_plus_ulp)
       (binary64.to_Q PrimFloat.zero) (binary64.to_Q PrimFloat.one)
       default_vector_norm true
     = inr (true, [true]).
Proof.
  split; [vm_compute; reflexivity |]. split; [| vm_compute; reflexivity].
  apply debug_ok_b_iff. vm_compute. reflexivity.
Qed.

(** C2, amended: for non-empty binary64 vectors of one length,
    [custom_convergence_check] with [debug] true visits the indices in
    order, tests [|dx[i]| < er * |x[i]| + ea] and
    [|residuum[i]| < eresiduum] (strict, relative to [x] before the
    update, the product and the sum rounded to binary64), appends the
    outcome to the detail list and stops after the first false.  So every
    entry of the detail list is the test of its index; when all indices
    pass, the list is all true and as long as [x]; when [k] is the first
    failing index, the list has length [k + 1], ends in false and is true
    before; and the verdict is true exactly when the detail list holds no
    false. *)
Theorem C2_diagnostic_short_circuit_rounded
  (x dx residuum : list PrimFloat.float)
  (er ea eresiduum : PrimFloat.float) :
  x <> [] -> length dx = length x -> length residuum = length x ->
  exists (b : bool) (detail : list bool),
    binary64.custom_convergence_check x dx residuum er ea eresiduum
      PrimFloat.abs true = inr (b, detail)
    /\ (b = true <-> ~ In false detail)
    /\ (length detail <= length x)%nat
    /\ (forall i, (i < length detail)%nat ->
          nth i detail true
          = (PrimFloat.ltb (PrimFloat.abs (nth i dx PrimFloat.zero))
               (PrimFloat.add
                  (PrimFloat.mul er (PrimFloat.abs (nth i x PrimFloat.zero)))
                  ea)
             && PrimFloat.ltb (PrimFloat.abs (nth i residuum PrimFloat.zero))
                  eresiduum))
    /\ ((forall i, (i < length x)%nat ->
           binary64.debug_ok PrimFloat.abs x dx residuum er ea eresiduum i
           = true) ->
        b = true /\ detail = repeat true (length x))
    /\ (forall k, (k < length x)%nat ->
          (forall i, (i < k)%nat ->
             binary64.debug_ok PrimFloat.abs x dx residuum er ea eresiduum i
             = true) ->
          binary64.debug_ok PrimFloat.abs x dx residuum er ea eresiduum k
          = false ->
          b = false
          /\ detail = repeat true k ++ [false]
          /\ length detail = S k
          /\ last detail true = false).
Proof.
  intros Hx Hdx Hr.
  set (ok := binary64.debug_ok PrimFloat.abs x dx residuum er ea eresiduum).
  exists (negb (existsb negb (map ok (seq 0 (length x))))),
         (until_false (map ok (seq 0 (length x)))).
  split; [apply b64_debug_returns; assumption |].
  split; [rewrite <- existsb_negb_false_iff, until_false_existsb;
          reflexivity |].
  assert (Hlen : (length (until_false (map ok (seq 0 (length x))))
                  <= length x)%nat).
  { etransitivity; [apply until_false_length_le |].
    now rewrite length_map, length_seq. }
  split; [exact Hlen |]. split; [| split].
  - intros i Hi. rewrite until_false_nth by exact Hi.
    rewrite map_seq_nth by lia. reflexivity.
  - intros Hok. split.
    + apply existsb_negb_map_false_iff. exact Hok.
    + apply until_false_all. intros i Hi. apply Hok. lia.
  - intros k Hk Hbefore Hat.
    assert (Hcut : until_false (map ok (seq 0 (length x)))
                   = repeat true k ++ [false]).
    { rewrite (until_false_first ok (length x) 0 k);
        [now rewrite Nat.sub_0_r | lia | | exact Hat].
      intros i Hi. apply Hbefore. lia. }
    split; [| split; [exact Hcut | split]].
    + apply negb_false_iff. apply existsb_exists. exists false.
      split; [| reflexivity]. apply in_map_iff. exists k.
      split; [exact Hat | apply in_seq; lia].
    + rewrite Hcut, length_app, repeat_length. cbn. lia.
    + rewrite Hcut. apply last_last.
Qed.

Lemma C2_diagnostic_short_circuit_rounded_witness :
  exists (b : bool) (detail : list bool),
    binary64.custom_convergence_check
      [PrimFloat.one; PrimFloat.one; PrimFloat.one]
      [PrimFloat.zero; PrimFloat.two; PrimFloat.zero]
      [PrimFloat.zero; PrimFloat.zero; PrimFloat.zero]
      binary64.constants.half binary64.constants.half binary64.constants.half
      PrimFloat.abs true = inr (b, detail)
    /\ (b = true <-> ~ In false detail)
    /\ b = false
    /\ detail = [true; false]
    /\ length detail = 2%nat
    /\ last detail true = false.
Proof.
  destruct (C2_diagnostic_short_circuit_rounded
              [PrimFloat.one; PrimFloat.one; PrimFloat.one]
              [PrimFloat.zero; PrimFloat.two; PrimFloat.zero]
              [PrimFloat.zero; PrimFloat.zero; PrimFloat.zero]
              binary64.constants.half binary64.constants.half
              binary64.constants.half)
    as [b [detail [Hrun [Hin [_ [_ [_ Hfirst]]]]]]];
    [discriminate | reflexivity | reflexivity |].
  exists b, detail. split; [exact Hrun |]. split; [exact Hin |].
  destruct (Hfirst 1%nat) as [Hb [Hd [Hl Hlast]]].
  - cbn. lia.
  - intros i Hi. replace i with 0%nat by lia. reflexivity.
  - reflexivity.
  - repeat split; assumption.
Defined.

(** C3: [voltage_convergence_check] is [custom_convergence_check] at
    [er = ver], [ea = vea], [eresiduum = iea], and
    [current_convergence_check] is [custom_convergence_check] at
    [er = ier], [ea = iea], [eresiduum = vea]: each takes its residual
    tolerance from the other physical type. *)
Theorem C3_cross_wired_tolerances (options : Options)
  (x dx residuum : list Q) (debug : bool) :
  voltage_convergence_check options x dx residuum debug
  = custom_convergence_check x dx residuum
      (ver options) (vea options) (iea options) default_vector_norm debug
  /\ current_convergence_check options x dx residuum debug
     = custom_convergence_check x dx residuum
         (ier options) (iea options) (vea options) default_vector_norm debug.
Proof. split; reflexivity. Qed.

(** C5: on vectors of length zero, [custom_convergence_check] returns
    [(True, [])] for every choice of tolerances and of [debug]. *)
Theorem C5_empty_is_converged (er ea eresiduum : Q) (vector_norm : Q -> Q)
  (debug : bool) :
  custom_convergence_check [] [] [] er ea eresiduum vector_norm debug
  = inr (true, []).
Proof. apply custom_check_empty. Qed.

(** ** Helper lemmas: slices *)

Lemma slice_bound_in_range (n : nat) (k : Z) :
  (0 <= k <= Z.of_nat n)%Z -> numpy.slice_bound n k = Z.to_nat k.
Proof.
  intros H. unfold numpy.slice_bound.
  destruct (Z.ltb_spec k 0); lia.
Qed.

Lemma slice_bound_le (n : nat) (k : Z) : (numpy.slice_bound n k <= n)%nat.
Proof.
  unfold numpy.slice_bound. destruct (Z.ltb_spec k 0); lia.
Qed.

Lemma slice_to_all (a : list Q) (n : nat) :
  length a = n -> numpy.slice_to a (Z.of_nat n) = a.
Proof.
  intros <-. unfold numpy.slice_to, numpy.shape0.
  rewrite slice_bound_in_range, Nat2Z.id by lia. apply firstn_all.
Qed.

Lemma slice_from_all (a : list Q) (n : nat) :
  length a = n -> numpy.slice_from a (Z.of_nat n) = [].
Proof.
  intros <-. unfold numpy.slice_from, numpy.shape0.
  rewrite slice_bound_in_range, Nat2Z.id by lia. apply skipn_all.
Qed.

Lemma slice_to_zero (a : list Q) : numpy.slice_to a 0 = [].
Proof.
  unfold numpy.slice_to. rewrite slice_bound_in_range by lia. reflexivity.
Qed.

Lemma slice_from_zero (a : list Q) : numpy.slice_from a 0 = a.
Proof.
  unfold numpy.slice_from. rewrite slice_bound_in_range by lia. reflexivity.
Qed.

(** The slices of the binary64 entry point, for an index in range. *)
Lemma b64_slice_to_in_range (v : list PrimFloat.float) (k : Z) :
  (0 <= k <= Z.of_nat (length v))%Z ->
  binary64.slice_to v k = firstn (Z.to_nat k) v.
Proof.
  intros H. unfold binary64.slice_to, binary64.shape0.
  now rewrite slice_bound_in_range.
Qed.

Lemma b64_slice_from_in_range (v : list PrimFloat.float) (k : Z) :
  (0 <= k <= Z.of_nat (length v))%Z ->
  binary64.slice_from v k = skipn (Z.to_nat k) v.
Proof.
  intros H. unfold binary64.slice_from, binary64.shape0.
  now rewrite slice_bound_in_range.
Qed.

(** With finite entries and no overflowing sum, the aggregate branch
    returns on vectors of one length, the empty one included. *)
Lemma b64_aggregate_total (x dx residuum : list PrimFloat.float)
  (er ea eresiduum : PrimFloat.float)
  (vector_norm : PrimFloat.float -> PrimFloat.float) :
  length dx = length x ->
  binary64.all_finite x = true -> binary64.sums_finite x dx = true ->
  binary64.all_finite residuum = true ->
  exists b : bool,
    binary64.custom_convergence_check x dx residuum er ea eresiduum
      vector_norm false = inr (b, []).
Proof.
  intros Hdx Hfx Hfs Hfr. destruct x as [| x0 xs] eqn:Ex.
  - exists true. reflexivity.
  - rewrite <- Ex in *. assert (Hx : x <> []) by (rewrite Ex; discriminate).
    destruct (b64_aggregate_spec x dx residuum er ea eresiduum vector_norm
                Hx Hdx Hfx Hfs Hfr) as [b [Hrun _]].
    exists b. exact Hrun.
Qed.

Lemma b64_sums_finite_firstn (x dx : list PrimFloat.float) (n : nat) :
  binary64.sums_finite x dx = true ->
  binary64.sums_finite (firstn n x) (firstn n dx) = true.
Proof.
  unfold binary64.sums_finite. rewrite b64_zip_with_firstn.
  apply b64_all_finite_firstn.
Qed.

Lemma b64_sums_finite_skipn (x dx : list PrimFloat.float) (n : nat) :
  length dx = length x ->
  binary64.sums_finite x dx = true ->
  binary64.sums_finite (skipn n x) (skipn n dx) = true.
Proof.
  intros H. unfold binary64.sums_finite.
  rewrite b64_zip_with_skipn by (symmetry; exact H).
  apply b64_all_finite_skipn.
Qed.



(** C6: for vectors of one length [n], [convergence_check] at partition
    index [n] has the current side return [(True, [])] and gives what
    [voltage_convergence_check] gives on the whole vectors; at partition
    index 0 it gives what [current_convergence_check] gives on the whole
    vectors. *)
Theorem C6_empty_partition (options : Options) (x dx residuum : list Q)
  (debug : bool) :
  length dx = length x -> length residuum = length x ->
  current_convergence_check options
    (numpy.slice_from x (Z.of_nat (length x)))
    (numpy.slice_from dx (Z.of_nat (length x)))
    (numpy.slice_from residuum (Z.of_nat (length x))) false
  = inr (true, [])
  /\ convergence_check options x dx residuum (Z.of_nat (length x)) debug
     = voltage_convergence_check options x dx residuum false
  /\ convergence_check options x dx residuum 0 debug
     = current_convergence_check options x dx residuum false.
Proof.
  intros Hdx Hr. unfold convergence_check.
  rewrite !slice_to_all, !slice_from_all, !slice_to_zero, !slice_from_zero
    by congruence.
  split; [reflexivity |]. split.
  - destruct (voltage_convergence_check options x dx residuum false)
      as [e | [vcheck vresults]]; [reflexivity |].
    cbn. now rewrite andb_true_r, app_nil_r.
  - destruct (current_convergence_check options x dx residuum false)
      as [e | [icheck iresults]]; reflexivity.
Qed.

Lemma C6_empty_partition_witness :
  current_convergence_check opts0
    (numpy.slice_from [5; 5] 2) (numpy.slice_from [1; 0] 2)
    (numpy.slice_from [0; 0] 2) false
  = inr (true, [])
  /\ convergence_check opts0 [5; 5] [1; 0] [0; 0] 2 false
     = voltage_convergence_check opts0 [5; 5] [1; 0] [0; 0] false
  /\ convergence_check opts0 [5; 5] [1; 0] [0; 0] 0 false
     = current_convergence_check opts0 [5; 5] [1; 0] [0; 0] false.
Proof.
  apply (C6_empty_partition opts0 [5; 5] [1; 0] [0; 0] false); reflexivity.
Defined.




(** ** Helper lemmas: what each tolerance can influence *)

(** Two runs of [custom_convergence_check] that share the residual
    tolerance agree, exceptions included, as soon as the step test of the
    selected branch gives the same verdict at every index under both
    pairs of step tolerances. *)
Lemma b64_same_outcome_when_steps_agree (x dx residuum : list PrimFloat.float)
  (er1 ea1 er2 ea2 eresiduum : PrimFloat.float) (debug : bool) :
  length dx = length x ->
  (forall i, (i < length x)%nat ->
     binary64.step_test debug x dx er1 ea1 i
     = binary64.step_test debug x dx er2 ea2 i) ->
  binary64.custom_convergence_check x dx residuum er1 ea1 eresiduum
    PrimFloat.abs debug
  = binary64.custom_convergence_check x dx residuum er2 ea2 eresiduum
      PrimFloat.abs debug.
Proof.
  intros Hdx H. unfold binary64.custom_convergence_check.
  destruct (negb (binary64.shape0 x =? 0)%nat); [| reflexivity].
  destruct debug; cbn [negb].
  - rewrite (b64_debug_loop_ext x dx residuum x dx residuum
               er1 ea1 eresiduum er2 ea2 eresiduum); [reflexivity |].
    intros i Hi. apply in_seq in Hi. unfold binary64.shape0 in Hi.
    specialize (H i ltac:(lia)). cbn [binary64.step_test] in H.
    unfold binary64.debug_test.
    rewrite !b64_getitem_in_range by lia. cbn [bind Monad_either].
    now rewrite H.
  - unfold binary64.add.
    rewrite b64_broadcast2_same_length by (symmetry; exact Hdx).
    cbn [bind Monad_either].
    assert (E : binary64.allclose x (binary64.zip_with PrimFloat.add x dx)
                  er1 ea1
                = binary64.allclose x (binary64.zip_with PrimFloat.add x dx)
                    er2 ea2).
    { unfold binary64.allclose, binary64.isclose.
      destruct (binary64.all_finite x
                && binary64.all_finite (binary64.zip_with PrimFloat.add x dx));
        [| reflexivity].
      rewrite !b64_broadcast2_same_length
        by (rewrite b64_zip_with_length; auto).
      f_equal. f_equal. apply b64_zip_with_ext.
      - rewrite b64_zip_with_length; auto.
      - intros i Hi. specialize (H i Hi).
        cbn [binary64.step_test] in H. unfold binary64.step_close in H.
        rewrite b64_zip_with_nth by auto. exact H. }
    now rewrite E.
Qed.

(** C8, as the specification states it, fails on the code: [iea] is also
    the absolute step tolerance of [current_convergence_check], and [vea]
    that of [voltage_convergence_check], so changing one of them alone
    can change the outcome of the check the claim calls unaffected. *)
Lemma C8_iea_changes_current_check :
  (differ_only_iea (mkOptions 0 0 0 0) (mkOptions 0 0 0 2)
   /\ current_convergence_check (mkOptions 0 0 0 0) [0] [1] [0] false
      = inr (false, [])
   /\ current_convergence_check (mkOptions 0 0 0 2) [0] [1] [0] false
      = inr (true, []))
  /\ (differ_only_vea (mkOptions 0 0 0 0) (mkOptions 0 2 0 0)
      /\ voltage_convergence_check (mkOptions 0 0 0 0) [0] [1] [0] false
         = inr (false, [])
      /\ voltage_convergence_check (mkOptions 0 2 0 0) [0] [1] [0] false
         = inr (true, [])).
Proof.
  repeat split; vm_compute; reflexivity.
Qed.

(** C8, amended: changing only [iea] changes the outcome of
    [voltage_convergence_check] for some inputs, and it reaches
    [current_convergence_check] through the step test alone: for vectors
    [x] and [dx] of one length, where the step test of the selected
    branch gives the same verdict at every index under both values of
    [iea], the two [current_convergence_check] outcomes are equal.
    Symmetrically, changing only [vea] changes the outcome of
    [current_convergence_check] for some inputs and reaches
    [voltage_convergence_check] through the step test alone. *)
Theorem C8_cross_tolerance_step_only (o1 o2 : binary64.Options)
  (x dx residuum : list PrimFloat.float) (debug : bool) :
  length dx = length x ->
  ((exists (p1 p2 : binary64.Options) (y dy r : list PrimFloat.float),
      binary64.differ_only_iea p1 p2
      /\ binary64.voltage_convergence_check p1 y dy r debug
         <> binary64.voltage_convergence_check p2 y dy r debug)
   /\ (binary64.differ_only_iea o1 o2 ->
       (forall i, (i < length x)%nat ->
          binary64.step_test debug x dx
            (binary64.ier o1) (binary64.iea o1) i
          = binary64.step_test debug x dx
              (binary64.ier o2) (binary64.iea o2) i) ->
       binary64.current_convergence_check o1 x dx residuum debug
       = binary64.current_convergence_check o2 x dx residuum debug))
  /\ ((exists (p1 p2 : binary64.Options) (y dy r : list PrimFloat.float),
         binary64.differ_only_vea p1 p2
         /\ binary64.current_convergence_check p1 y dy r debug
            <> binary64.current_convergence_check p2 y dy r debug)
      /\ (binary64.differ_only_vea o1 o2 ->
          (forall i, (i < length x)%nat ->
             binary64.step_test debug x dx
               (binary64.ver o1) (binary64.vea o1) i
             = binary64.step_test debug x dx
                 (binary64.ver o2) (binary64.vea o2) i) ->
          binary64.voltage_convergence_check o1 x dx residuum debug
          = binary64.voltage_convergence_check o2 x dx residuum debug)).
Proof.
  intros Hdx. split; split.
  - exists (binary64.mkOptions PrimFloat.one PrimFloat.one PrimFloat.one
              PrimFloat.zero),
           (binary64.mkOptions PrimFloat.one PrimFloat.one PrimFloat.one
              PrimFloat.two),
           [PrimFloat.zero], [PrimFloat.zero], [PrimFloat.one].
    split; [repeat split |]. destruct debug; vm_compute; discriminate.
  - intros [_ [Hvea _]] H. unfold binary64.current_convergence_check.
    rewrite Hvea. now apply b64_same_outcome_when_steps_agree.
  - exists (binary64.mkOptions PrimFloat.one PrimFloat.zero PrimFloat.one
              PrimFloat.one),
           (binary64.mkOptions PrimFloat.one PrimFloat.two PrimFloat.one
              PrimFloat.one),
           [PrimFloat.zero], [PrimFloat.zero], [PrimFloat.one].
    split; [repeat split |]. destruct debug; vm_compute; discriminate.
  - intros [_ [_ Hiea]] H. unfold binary64.voltage_convergence_check.
    rewrite Hiea. now apply b64_same_outcome_when_steps_agree.
Qed.

(** Under [ier = 0] the step of 2 at index 1 fails with [iea = 1] and
    with [iea = 1.5] alike, and the step of 0 passes with both. *)
Lemma C8_cross_tolerance_step_only_witness :
  binary64.current_convergence_check
    (binary64.mkOptions PrimFloat.one PrimFloat.one PrimFloat.zero
       PrimFloat.one)
    binary64.sample.x binary64.sample.dx binary64.sample.residuum false
  = binary64.current_convergence_check
      (binary64.mkOptions PrimFloat.one PrimFloat.one PrimFloat.zero
         binary64.constants.one_and_half)
      binary64.sample.x binary64.sample.dx binary64.sample.residuum false
  /\ binary64.voltage_convergence_check
       (binary64.mkOptions PrimFloat.zero PrimFloat.one PrimFloat.one
          PrimFloat.one)
       binary64.sample.x binary64.sample.dx binary64.sample.residuum true
     = binary64.voltage_convergence_check
         (binary64.mkOptions PrimFloat.zero binary64.constants.one_and_half
            PrimFloat.one PrimFloat.one)
         binary64.sample.x binary64.sample.dx binary64.sample.residuum true.
Proof.
  split.
  - apply (proj2 (proj1 (C8_cross_tolerance_step_only
                           (binary64.mkOptions PrimFloat.one PrimFloat.one
                              PrimFloat.zero PrimFloat.one)
                           (binary64.mkOptions PrimFloat.one PrimFloat.one
                              PrimFloat.zero binary64.constants.one_and_half)
                           binary64.sample.x binary64.sample.dx
                           binary64.sample.residuum false eq_refl))).
    + repeat split.
    + intros [| [| [| i]]] Hi; [reflexivity .. | cbn in Hi; lia].
  - apply (proj2 (proj2 (C8_cross_tolerance_step_only
                           (binary64.mkOptions PrimFloat.zero PrimFloat.one
                              PrimFloat.one PrimFloat.one)
                           (binary64.mkOptions PrimFloat.zero
                              binary64.constants.one_and_half
                              PrimFloat.one PrimFloat.one)
                           binary64.sample.x binary64.sample.dx
                           binary64.sample.residuum true eq_refl))).
    + repeat split.
    + intros [| [| [| i]]] Hi; [reflexivity .. | cbn in Hi; lia].
Defined.

(** ** Helper lemmas: looser tolerances *)





(** C10, as the specification states it, fails on the code: on finite
    vectors of one length whose sum [x + dx] overflows, the aggregate
    branch raises.  [allclose] finds an entry of [x + dx] that is not
    finite and numpy's [isclose] then multiplies two column matrices,
    which raises ValueError. *)
Lemma C10_overflowing_sum_raises :
  length [binary64.constants.two_pow_1023; binary64.constants.two_pow_1023]
  = length [binary64.constants.two_pow_1023; binary64.constants.two_pow_1023]
  /\ binary64.all_finite
       [binary64.constants.two_pow_1023; binary64.constants.two_pow_1023]
     = true
  /\ binary64.custom_convergence_check
       [binary64.constants.two_pow_1023; binary64.constants.two_pow_1023]
       [binary64.constants.two_pow_1023; binary64.constants.two_pow_1023]
       [PrimFloat.zero; PrimFloat.zero]
       PrimFloat.one PrimFloat.one PrimFloat.one PrimFloat.abs false
     = inl binary64.ValueError.
Proof. repeat split. Qed.

(** C10, amended: for binary64 vectors of one length, zero included, and
    any tolerances, negative ones included, [custom_convergence_check]
    returns a pair of a boolean and a list and raises nothing, in the
    [debug] branch always, and in the aggregate branch when the entries of
    [x] and [residuum] and the rounded sums [x[i] + dx[i]] are finite; a
    check that does not pass is then the value [False]. *)
Theorem C10_total_when_sums_finite (x dx residuum : list PrimFloat.float)
  (er ea eresiduum : PrimFloat.float) (debug : bool) :
  length dx = length x -> length residuum = length x ->
  debug = true
  \/ (binary64.all_finite x = true /\ binary64.sums_finite x dx = true
      /\ binary64.all_finite residuum = true) ->
  exists (b : bool) (detail : list bool),
    binary64.custom_convergence_check x dx residuum er ea eresiduum
      PrimFloat.abs debug = inr (b, detail).
Proof.
  intros Hdx Hr [-> | [Hfx [Hfs Hfr]]].
  - destruct x as [| x0 xs] eqn:Ex; [exists true, []; reflexivity |].
    rewrite <- Ex in *.
    assert (Hx : x <> []) by (rewrite Ex; discriminate).
    do 2 eexists. apply b64_debug_returns; assumption.
  - destruct debug.
    + destruct x as [| x0 xs] eqn:Ex; [exists true, []; reflexivity |].
      rewrite <- Ex in *.
      assert (Hx : x <> []) by (rewrite Ex; discriminate).
      do 2 eexists. apply b64_debug_returns; assumption.
    + destruct (b64_aggregate_total x dx residuum er ea eresiduum
                  PrimFloat.abs Hdx Hfx Hfs Hfr) as [b Hrun].
      exists b, []. exact Hrun.
Qed.

Lemma C10_total_when_sums_finite_witness :
  (exists (b : bool) (detail : list bool),
     binary64.custom_convergence_check
       [binary64.constants.two_pow_1023; binary64.constants.two_pow_1023]
       [binary64.constants.two_pow_1023; binary64.constants.two_pow_1023]
       [PrimFloat.zero; PrimFloat.zero]
       binary64.constants.minus_one PrimFloat.zero binary64.constants.minus_one
       PrimFloat.abs true = inr (b, detail))
  /\ (exists (b : bool) (detail : list bool),
        binary64.custom_convergence_check
          binary64.sample.x binary64.sample.dx binary64.sample.residuum
          binary64.constants.minus_one PrimFloat.zero
          binary64.constants.minus_one
          PrimFloat.abs false = inr (b, detail)).
Proof.
  split.
  - apply (C10_total_when_sums_finite
             [binary64.constants.two_pow_1023; binary64.constants.two_pow_1023]
             [binary64.constants.two_pow_1023; binary64.constants.two_pow_1023]
             [PrimFloat.zero; PrimFloat.zero]
             binary64.constants.minus_one PrimFloat.zero
             binary64.constants.minus_one true);
      [reflexivity | reflexivity | left; reflexivity].
  - apply (C10_total_when_sums_finite
             binary64.sample.x binary64.sample.dx binary64.sample.residuum
             binary64.constants.minus_one PrimFloat.zero
             binary64.constants.minus_one false);
      [reflexivity | reflexivity | right; repeat split].
Defined.

(** ** Runs of the helpers *)

Example run_expand :
  expand_matrix (mkMatrix 2 2 [[1; 2]; [3; 4]]) true true
  = inr (mkMatrix 3 3 [[1; 2; 0]; [3; 4; 0]; [0; 0; 0]]).
Proof. reflexivity. Qed.

Example run_remove :
  remove_row_and_col (mkMatrix 3 3 [[1; 2; 3]; [4; 5; 6]; [7; 8; 9]]) 1 10
  = inr (Some (mkMatrix 2 3 [[1; 2; 3]; [7; 8; 9]]))
  /\ remove_row_and_col (mkMatrix 3 3 [[1; 2; 3]; [4; 5; 6]; [7; 8; 9]]) 0 0
     = inr (Some (mkMatrix 2 2 [[5; 6]; [8; 9]]))
  /\ remove_row (mkMatrix 3 3 [[1; 2; 3]; [4; 5; 6]; [7; 8; 9]]) 3 = inr None
  /\ remove_row (mkMatrix 3 3 [[1; 2; 3]; [4; 5; 6]; [7; 8; 9]]) 2
     = inr (Some (mkMatrix 2 3 [[1; 2; 3]; [4; 5; 6]])).
Proof. repeat split. Qed.

(** ** Helper lemmas: slices of lists and matrices *)

Lemma slice_bound_nonneg (n : nat) (k : Z) :
  (0 <= k)%Z -> numpy.slice_bound n k = Nat.min (Z.to_nat k) n.
Proof.
  intros H. unfold numpy.slice_bound. destruct (Z.ltb_spec k 0); [lia |].
  reflexivity.
Qed.

Section SliceList.

Context {A : Type}.

Lemma firstn_min_length (l : list A) (k : nat) :
  firstn (Nat.min k (length l)) l = firstn k l.
Proof.
  destruct (Nat.le_gt_cases k (length l)) as [H | H].
  - now rewrite Nat.min_l.
  - rewrite Nat.min_r, firstn_all, firstn_all2 by lia. reflexivity.
Qed.

Lemma skipn_min_length (l : list A) (k : nat) :
  skipn (Nat.min k (length l)) l = skipn k l.
Proof.
  destruct (Nat.le_gt_cases k (length l)) as [H | H].
  - now rewrite Nat.min_l.
  - rewrite Nat.min_r, skipn_all, skipn_all2 by lia. reflexivity.
Qed.

(** [l[0:k]] and [l[:k]] for [k >= 0] *)
Lemma slice_list_to (l : list A) (n : nat) (lo : option Z) (k : Z) :
  length l = n -> (0 <= k)%Z -> lo = None \/ lo = Some 0%Z ->
  slice_list (slice_range n lo (Some k)) l = firstn (Z.to_nat k) l.
Proof.
  intros <- Hk Hlo. unfold slice_list, slice_range.
  assert (E : match lo with
              | Some k0 => numpy.slice_bound (length l) k0
              | None => 0%nat
              end = 0%nat).
  { destruct Hlo as [-> | ->]; [reflexivity |].
    rewrite slice_bound_nonneg by lia. reflexivity. }
  rewrite E. cbn [fst snd skipn]. rewrite Nat.sub_0_r.
  rewrite slice_bound_nonneg by exact Hk. apply firstn_min_length.
Qed.

(** [l[k:]] for [k >= 0] *)
Lemma slice_list_from (l : list A) (n : nat) (k : Z) :
  length l = n -> (0 <= k)%Z ->
  slice_list (slice_range n (Some k) None) l = skipn (Z.to_nat k) l.
Proof.
  intros <- Hk. unfold slice_list, slice_range. cbn [fst snd].
  rewrite slice_bound_nonneg by exact Hk.
  rewrite firstn_all2 by (rewrite length_skipn; lia).
  apply skipn_min_length.
Qed.

(** [l[:]] *)
Lemma slice_list_all (l : list A) (n : nat) :
  length l = n -> slice_list (slice_range n None None) l = l.
Proof.
  intros <-. unfold slice_list, slice_range. cbn [fst snd skipn].
  rewrite Nat.sub_0_r. apply firstn_all.
Qed.

Lemma without_past_end (l : list A) (i : nat) :
  (length l <= i)%nat -> without i l = l.
Proof.
  intros H. unfold without.
  rewrite firstn_all2, skipn_all2 by lia. apply app_nil_r.
Qed.

Lemma without_length (l : list A) (i : nat) :
  length (without i l)
  = (length l - (if (i <? length l)%nat then 1 else 0))%nat.
Proof.
  unfold without. rewrite length_app, length_firstn, length_skipn.
  destruct (Nat.ltb_spec i (length l)); lia.
Qed.

Lemma without_nth (l : list A) (i k : nat) (d : A) :
  nth k (without i l) d = nth (if (k <? i)%nat then k else S k) l d.
Proof.
  unfold without. destruct (Nat.ltb_spec k i) as [Hk | Hk].
  - destruct (Nat.le_gt_cases (length l) k) as [Hl | Hl].
    + rewrite firstn_all2, skipn_all2 by lia. now rewrite app_nil_r.
    + rewrite app_nth1 by (rewrite length_firstn; lia).
      apply nth_firstn_lt || (rewrite nth_firstn;
        destruct (Nat.ltb_spec k i); [reflexivity | lia]).
  - destruct (Nat.le_gt_cases (length l) i) as [Hl | Hl].
    + rewrite firstn_all2, skipn_all2 by lia. rewrite app_nil_r.
      rewrite !nth_overflow by lia. reflexivity.
    + rewrite app_nth2 by (rewrite length_firstn; lia).
      rewrite length_firstn, Nat.min_l by lia.
      rewrite nth_skipn. f_equal. lia.
Qed.

Lemma without_app_one (l : list A) (a : A) :
  without (length l) (l ++ [a]) = l.
Proof.
  unfold without. rewrite firstn_app, firstn_all, Nat.sub_diag.
  rewrite skipn_all2 by (rewrite length_app; cbn; lia).
  cbn. now rewrite !app_nil_r.
Qed.

End SliceList.

Lemma map_combine_same {A B C D : Type} (f : A -> B) (g : A -> C)
  (h : B * C -> D) (l : list A) :
  map h (combine (map f l) (map g l)) = map (fun a => h (f a, g a)) l.
Proof.
  induction l as [| a l IH]; [reflexivity |]. cbn. now rewrite IH.
Qed.

Lemma Forall_firstn {A : Type} (P : A -> Prop) (n : nat) (l : list A) :
  Forall P l -> Forall P (firstn n l).
Proof.
  intros H. revert n. induction H as [| a l Ha Hl IH]; intros [| n]; cbn;
    constructor; auto.
Qed.

Lemma Forall_skipn {A : Type} (P : A -> Prop) (n : nat) (l : list A) :
  Forall P l -> Forall P (skipn n l).
Proof.
  intros H. revert n. induction H as [| a l Ha Hl IH]; intros [| n]; cbn;
    auto.
Qed.

(** ** The matrix helpers *)

Lemma hstack_same_rows (a b : matrix) :
  n_row a = n_row b ->
  hstack a b
  = inr (mkMatrix (n_row a) (n_col a + n_col b)
           (map (fun p : list Q * list Q => fst p ++ snd p)
              (combine (rows a) (rows b)))).
Proof.
  intros H. unfold hstack. rewrite H, Nat.eqb_refl. reflexivity.
Qed.

Lemma vstack_same_cols (a b : matrix) :
  n_col a = n_col b ->
  vstack a b = inr (mkMatrix (n_row a + n_row b) (n_col a) (rows a ++ rows b)).
Proof.
  intros H. unfold vstack. rewrite H, Nat.eqb_refl. reflexivity.
Qed.

(** What [remove_row_and_col] returns for indices that are not negative:
    the shape arithmetic of the four slices, and the rows of a well-formed
    matrix without row [rrow], each without its item [rcol]. *)
Lemma remove_row_and_col_rows (m : matrix) (rrow rcol : Z) :
  (0 <= rrow)%Z -> (0 <= rcol)%Z ->
  exists m' : matrix,
    remove_row_and_col m rrow rcol = inr (Some m')
    /\ (wf m ->
        rows m' = map (without (Z.to_nat rcol))
                    (without (Z.to_nat rrow) (rows m))
        /\ n_row m' = length (without (Z.to_nat rrow) (rows m))
        /\ n_col m'
           = (n_col m
              - (if (Z.to_nat rcol <? n_col m)%nat then 1 else 0))%nat).
Proof.
  intros Hr Hc. unfold remove_row_and_col.
  destruct (Z.ltb_spec rrow 0); [lia |].
  destruct (Z.ltb_spec rcol 0); [lia |]. cbn [orb].
  rewrite !hstack_same_rows by reflexivity. cbn [bind Monad_either].
  rewrite vstack_same_cols by reflexivity. cbn [bind Monad_either ret].
  eexists. split; [reflexivity |].
  intros [Hlen Hall]. cbn [rows n_row n_col getslice].
  rewrite !map_combine_same. cbn [fst snd].
  rewrite (slice_list_to (rows m)), (slice_list_from (rows m))
    by (auto; lia).
  replace (Z.to_nat (rrow + 1)) with (S (Z.to_nat rrow)) by lia.
  split; [| split].
  - unfold without at 2. rewrite map_app. f_equal; apply map_ext_in;
      intros r Hin.
    + assert (Hrl : length r = n_col m)
        by exact (proj1 (Forall_forall _ _)
                    (Forall_firstn _ (Z.to_nat rrow) _ Hall) r Hin).
      rewrite (slice_list_to r), (slice_list_from r) by (auto; lia).
      replace (Z.to_nat (rcol + 1)) with (S (Z.to_nat rcol)) by lia.
      reflexivity.
    + assert (Hrl : length r = n_col m)
        by exact (proj1 (Forall_forall _ _)
                    (Forall_skipn _ (S (Z.to_nat rrow)) _ Hall) r Hin).
      rewrite (slice_list_to r), (slice_list_from r) by (auto; lia).
      replace (Z.to_nat (rcol + 1)) with (S (Z.to_nat rcol)) by lia.
      reflexivity.
  - unfold without, slice_range. cbn [fst snd].
    rewrite length_app, length_firstn, length_skipn, Hlen.
    rewrite !slice_bound_nonneg by lia. lia.
  - unfold slice_range. cbn [fst snd].
    rewrite !slice_bound_nonneg by lia.
    destruct (Nat.ltb_spec (Z.to_nat rcol) (n_col m)); lia.
Qed.

Lemma matrix_eq (a b : matrix) :
  n_row a = n_row b -> n_col a = n_col b -> rows a = rows b -> a = b.
Proof.
  destruct a, b. cbn. intros -> -> ->. reflexivity.
Qed.

Lemma map_combine_repeat {A B C : Type} (h : A * B -> C) (b : B)
  (l : list A) (n : nat) :
  length l = n ->
  map h (combine l (repeat b n)) = map (fun a => h (a, b)) l.
Proof.
  intros <-. induction l as [| a l IH]; [reflexivity |].
  cbn. now rewrite IH.
Qed.

Lemma nth_app_default {A : Type} (l : list A) (d : A) (j : nat) :
  nth j (l ++ [d]) d = nth j l d.
Proof.
  destruct (Nat.lt_ge_cases j (length l)) as [H | H].
  - now apply app_nth1.
  - rewrite app_nth2, (nth_overflow l) by lia.
    destruct (j - length l)%nat as [| [| k]]; reflexivity.
Qed.

(** The rows [expand_matrix] returns, case by case. *)
Lemma expand_matrix_rows (m : matrix) (add_a_row add_a_col : bool) :
  wf m ->
  expand_matrix m add_a_row add_a_col
  = inr (match add_a_row, add_a_col with
         | false, false => m
         | false, true =>
             mkMatrix (n_row m) (n_col m + 1)
               (map (fun r => r ++ [0]) (rows m))
         | true, false =>
             mkMatrix (n_row m + 1) (n_col m)
               (rows m ++ [repeat 0 (n_col m)])
         | true, true =>
             mkMatrix (n_row m + 1) (n_col m + 1)
               (map (fun r => r ++ [0]) (rows m)
                ++ [repeat 0 (n_col m + 1)])
         end).
Proof.
  intros [Hlen Hall]. unfold expand_matrix.
  destruct add_a_col.
  - rewrite hstack_same_rows by reflexivity. cbn [bind Monad_either].
    cbn [zeros rows n_row n_col].
    rewrite (map_combine_repeat _ _ _ _ Hlen). cbn [fst snd repeat].
    destruct add_a_row; [| reflexivity].
    rewrite vstack_same_cols by reflexivity. reflexivity.
  - cbn [bind Monad_either ret]. destruct add_a_row; [| reflexivity].
    rewrite vstack_same_cols by reflexivity. reflexivity.
Qed.

Lemma wf_expanded (m : matrix) (add_a_row add_a_col : bool) (m' : matrix) :
  wf m -> expand_matrix m add_a_row add_a_col = inr m' -> wf m'.
Proof.
  intros Hwf Hrun. rewrite expand_matrix_rows in Hrun by exact Hwf.
  injection Hrun as <-. destruct Hwf as [Hlen Hall].
  assert (Hext : Forall (fun r : list Q => length r = (n_col m + 1)%nat)
                   (map (fun r => r ++ [0]) (rows m))).
  { apply Forall_map. eapply Forall_impl; [| exact Hall].
    cbn. intros r Hr. rewrite length_app, Hr. reflexivity. }
  destruct add_a_row, add_a_col; split; cbn [rows n_row n_col];
    try exact Hlen; try exact Hall; try exact Hext;
    try (rewrite length_app, ?length_map, Hlen; reflexivity);
    try (now rewrite length_map).
  - apply Forall_app. split; [exact Hext |].
    constructor; [apply repeat_length | constructor].
  - apply Forall_app. split; [exact Hall |].
    constructor; [apply repeat_length | constructor].
Qed.

(** X3: on a well-formed matrix [expand_matrix] raises nothing; the
    result has one more row when [add_a_row] and one more column when
    [add_a_col], keeps every entry of [matrix] in place and holds 0 in
    the added row and column. *)
Theorem expand_matrix_pads_with_zeros (m : matrix)
  (add_a_row add_a_col : bool) :
  wf m ->
  exists m' : matrix,
    expand_matrix m add_a_row add_a_col = inr m'
    /\ wf m'
    /\ n_row m' = (n_row m + (if add_a_row then 1 else 0))%nat
    /\ n_col m' = (n_col m + (if add_a_col then 1 else 0))%nat
    /\ (forall i j,
          entry m' i j
          = if (i <? n_row m)%nat && (j <? n_col m)%nat
            then entry m i j else 0).
Proof.
  intros Hwf. eexists. split; [apply expand_matrix_rows; exact Hwf |].
  split; [eapply wf_expanded; [exact Hwf | apply expand_matrix_rows;
                                            exact Hwf] |].
  destruct Hwf as [Hlen Hall].
  assert (Hout : forall i j,
             entry m i j
             = if (i <? n_row m)%nat && (j <? n_col m)%nat
               then entry m i j else 0).
  { intros i j. unfold entry.
    destruct (Nat.ltb_spec i (n_row m)) as [Hi | Hi]; cbn [andb].
    - destruct (Nat.ltb_spec j (n_col m)) as [Hj | Hj]; [reflexivity |].
      apply nth_overflow.
      assert (Hin : In (nth i (rows m) []) (rows m))
        by (apply nth_In; lia).
      rewrite (proj1 (Forall_forall _ _) Hall _ Hin). exact Hj.
    - rewrite (nth_overflow (rows m)) by lia. now destruct j. }
  assert (Hcol : forall i j,
             nth j (nth i (map (fun r => r ++ [0]) (rows m)) []) 0
             = entry m i j).
  { intros i j. unfold entry.
    destruct (Nat.lt_ge_cases i (length (rows m))) as [Hi | Hi].
    - rewrite (nth_indep _ [] ([] ++ [0])) by now rewrite length_map.
      rewrite (map_nth (fun r => r ++ [0])). apply nth_app_default.
    - rewrite (nth_overflow (map _ (rows m)))
        by (rewrite length_map; exact Hi).
      rewrite (nth_overflow (rows m)) by exact Hi. reflexivity. }
  assert (Hrow : forall (l : list (list Q)) c i j,
             nth j (nth i (l ++ [repeat 0 c]) []) 0 = nth j (nth i l []) 0).
  { intros l c i j.
    destruct (Nat.lt_ge_cases i (length l)) as [Hi | Hi].
    - now rewrite app_nth1.
    - rewrite app_nth2, (nth_overflow l) by exact Hi.
      destruct (i - length l)%nat as [| [| k]]; cbn [nth];
        rewrite ?nth_repeat; now destruct j. }
  destruct add_a_row, add_a_col; cbn [n_row n_col];
    (split; [lia || reflexivity |]); (split; [lia || reflexivity |]);
    intros i j; rewrite <- Hout; unfold entry at 1; cbn [rows];
    rewrite ?Hrow, ?Hcol; reflexivity.
Qed.

Lemma expand_matrix_pads_with_zeros_witness :
  exists m' : matrix,
    expand_matrix (mkMatrix 1 2 [[7; 8]]) true true = inr m'
    /\ n_row m' = 2%nat /\ n_col m' = 3%nat.
Proof.
  destruct (expand_matrix_pads_with_zeros (mkMatrix 1 2 [[7; 8]]) true true)
    as [m' [Hrun [_ [Hr [Hc _]]]]].
  - split; [reflexivity | repeat constructor].
  - exists m'. repeat split; assumption.
Defined.

Lemma entry_without (m m' : matrix) (r c : nat) :
  rows m' = map (without c) (without r (rows m)) ->
  forall i j,
    entry m' i j
    = entry m (if (i <? r)%nat then i else S i)
              (if (j <? c)%nat then j else S j).
Proof.
  intros Hrows i j. unfold entry. rewrite Hrows.
  assert (E : without c (@nil Q) = [])
    by (unfold without; now rewrite firstn_nil, skipn_nil).
  rewrite <- E at 1.
  rewrite (map_nth (without c)), !without_nth. reflexivity.
Qed.

(** X4: [remove_row_and_col] returns None exactly when one of the two
    indices is negative, and raises nothing. *)
Theorem remove_row_and_col_none_iff (m : matrix) (rrow rcol : Z) :
  (remove_row_and_col m rrow rcol = inr None
   <-> (rrow < 0)%Z \/ (rcol < 0)%Z)
  /\ (forall e : PyExc, remove_row_and_col m rrow rcol <> inl e).
Proof.
  destruct (Z.ltb_spec rrow 0) as [Hr | Hr];
    [| destruct (Z.ltb_spec rcol 0) as [Hc | Hc]].
  - assert (E : remove_row_and_col m rrow rcol = inr None).
    { unfold remove_row_and_col.
      destruct (Z.ltb_spec rrow 0); [reflexivity | lia]. }
    rewrite E. split; [tauto | discriminate].
  - assert (E : remove_row_and_col m rrow rcol = inr None).
    { unfold remove_row_and_col.
      destruct (Z.ltb_spec rcol 0); [| lia]. now rewrite orb_true_r. }
    rewrite E. split; [tauto | discriminate].
  - destruct (remove_row_and_col_rows m rrow rcol Hr Hc) as [m' [E _]].
    rewrite E. split; [| discriminate].
    split; [discriminate | lia].
Qed.

(** X5: for a well-formed matrix and two indices that are not negative,
    [remove_row_and_col] returns a well-formed matrix whose entry [(i, j)]
    is the entry of [matrix] at [(i, j)] shifted by one past the removed
    row and past the removed column; the shape loses one row when [rrow]
    is inside and one column when [rcol] is inside. *)
Theorem remove_row_and_col_entries (m : matrix) (rrow rcol : Z) :
  wf m -> (0 <= rrow)%Z -> (0 <= rcol)%Z ->
  exists m' : matrix,
    remove_row_and_col m rrow rcol = inr (Some m')
    /\ wf m'
    /\ n_row m'
       = (n_row m - (if (rrow <? Z.of_nat (n_row m))%Z then 1 else 0))%nat
    /\ n_col m'
       = (n_col m - (if (rcol <? Z.of_nat (n_col m))%Z then 1 else 0))%nat
    /\ (forall i j,
          entry m' i j
          = entry m (if (Z.of_nat i <? rrow)%Z then i else S i)
                    (if (Z.of_nat j <? rcol)%Z then j else S j)).
Proof.
  intros Hwf Hr Hc.
  destruct (remove_row_and_col_rows m rrow rcol Hr Hc) as [m' [E Hm']].
  destruct (Hm' Hwf) as [Hrows [Hnr Hnc]]. destruct Hwf as [Hlen Hall].
  exists m'. split; [exact E |]. split; [| split; [| split]].
  - split.
    + rewrite Hrows, length_map. now rewrite Hnr.
    + rewrite Hrows. apply Forall_map.
      assert (Hw : Forall (fun r : list Q => length r = n_col m)
                     (without (Z.to_nat rrow) (rows m))).
      { unfold without. apply Forall_app. split;
          [now apply Forall_firstn | now apply Forall_skipn]. }
      eapply Forall_impl; [| exact Hw]. cbn. intros r Hrl.
      rewrite without_length, Hrl, Hnc. reflexivity.
  - rewrite Hnr, without_length, Hlen.
    destruct (Nat.ltb_spec (Z.to_nat rrow) (n_row m));
      destruct (Z.ltb_spec rrow (Z.of_nat (n_row m))); lia.
  - rewrite Hnc.
    destruct (Nat.ltb_spec (Z.to_nat rcol) (n_col m));
      destruct (Z.ltb_spec rcol (Z.of_nat (n_col m))); lia.
  - intros i j. rewrite (entry_without m m' _ _ Hrows).
    destruct (Nat.ltb_spec i (Z.to_nat rrow));
      destruct (Z.ltb_spec (Z.of_nat i) rrow); try lia;
      destruct (Nat.ltb_spec j (Z.to_nat rcol));
      destruct (Z.ltb_spec (Z.of_nat j) rcol); try lia; reflexivity.
Qed.

Lemma remove_row_and_col_entries_witness :
  exists m' : matrix,
    remove_row_and_col (mkMatrix 2 2 [[1; 2]; [3; 4]]) 0 1 = inr (Some m')
    /\ n_row m' = 1%nat /\ n_col m' = 1%nat /\ entry m' 0 0 = 3.
Proof.
  destruct (remove_row_and_col_entries (mkMatrix 2 2 [[1; 2]; [3; 4]]) 0 1)
    as [m' [Hrun [_ [Hr [Hc He]]]]].
  - split; [reflexivity | repeat constructor].
  - lia.
  - lia.
  - exists m'. split; [exact Hrun |]. split; [exact Hr |].
    split; [exact Hc |]. rewrite He. reflexivity.
Defined.

(** X6: an index past the end removes nothing: with both indices at or
    beyond the shape, [remove_row_and_col] returns the matrix as it is. *)
Theorem remove_row_and_col_past_end (m : matrix) (rrow rcol : Z) :
  wf m ->
  (Z.of_nat (n_row m) <= rrow)%Z -> (Z.of_nat (n_col m) <= rcol)%Z ->
  remove_row_and_col m rrow rcol = inr (Some m).
Proof.
  intros Hwf Hr Hc.
  destruct (remove_row_and_col_rows m rrow rcol) as [m' [E Hm']];
    [lia | lia |].
  destruct (Hm' Hwf) as [Hrows [Hnr Hnc]]. destruct Hwf as [Hlen Hall].
  rewrite E. do 2 f_equal.
  rewrite without_past_end in Hrows, Hnr by lia.
  apply matrix_eq.
  - now rewrite Hnr.
  - rewrite Hnc. destruct (Nat.ltb_spec (Z.to_nat rcol) (n_col m)); lia.
  - rewrite Hrows. rewrite <- (map_id (rows m)) at 2.
    apply map_ext_in. intros r Hin. apply without_past_end.
    rewrite (proj1 (Forall_forall _ _) Hall r Hin). lia.
Qed.

Lemma remove_row_and_col_past_end_witness :
  remove_row_and_col (mkMatrix 2 2 [[1; 2]; [3; 4]]) 2 5
  = inr (Some (mkMatrix 2 2 [[1; 2]; [3; 4]])).
Proof.
  apply (remove_row_and_col_past_end (mkMatrix 2 2 [[1; 2]; [3; 4]]) 2 5).
  - split; [reflexivity | repeat constructor].
  - cbn. lia.
  - cbn. lia.
Defined.

(** What [remove_row] returns for a row index inside the matrix. *)
Lemma remove_row_rows (m : matrix) (rrow : Z) :
  wf m -> (0 <= rrow < Z.of_nat (n_row m))%Z ->
  remove_row m rrow
  = inr (Some (mkMatrix (n_row m - 1) (n_col m)
                 (without (Z.to_nat rrow) (rows m)))).
Proof.
  intros [Hlen Hall] Hr. unfold remove_row.
  destruct (Z.ltb_spec rrow 0); [lia |].
  destruct (Z.gtb_spec rrow (Z.of_nat (n_row m) - 1)); [lia |]. cbn [orb].
  rewrite vstack_same_cols by reflexivity. cbn [bind Monad_either ret].
  do 2 f_equal. cbn [getslice rows n_row n_col]. apply matrix_eq;
    cbn [rows n_row n_col].
  - unfold slice_range. cbn [fst snd].
    rewrite !slice_bound_nonneg by lia. lia.
  - unfold slice_range. cbn [fst snd]. lia.
  - rewrite (slice_list_to (rows m)), (slice_list_from (rows m))
      by (auto; lia).
    replace (Z.to_nat (rrow + 1)) with (S (Z.to_nat rrow)) by lia.
    unfold without. f_equal.
    + rewrite <- (map_id (firstn _ _)) at 2. apply map_ext_in.
      intros r Hin. apply slice_list_all.
      exact (proj1 (Forall_forall _ _)
               (Forall_firstn _ (Z.to_nat rrow) _ Hall) r Hin).
    + rewrite <- (map_id (skipn _ _)) at 2. apply map_ext_in.
      intros r Hin. apply slice_list_all.
      exact (proj1 (Forall_forall _ _)
               (Forall_skipn _ (S (Z.to_nat rrow)) _ Hall) r Hin).
Qed.

(** X7: [remove_row] returns None exactly when [rrow] is negative or not
    below the number of rows, and raises nothing; unlike
    [remove_row_and_col] it refuses an index past the end. *)
Theorem remove_row_none_iff (m : matrix) (rrow : Z) :
  (remove_row m rrow = inr None
   <-> (rrow < 0)%Z \/ (Z.of_nat (n_row m) <= rrow)%Z)
  /\ (forall e : PyExc, remove_row m rrow <> inl e).
Proof.
  unfold remove_row.
  destruct (Z.ltb_spec rrow 0) as [Hr | Hr]; cbn [orb].
  - split; [split; [intros _; now left | reflexivity] | discriminate].
  - destruct (Z.gtb_spec rrow (Z.of_nat (n_row m) - 1)) as [Hg | Hg].
    + split; [split; [intros _; right; lia | reflexivity] | discriminate].
    + rewrite vstack_same_cols by reflexivity. cbn [bind Monad_either ret].
      split; [split; [discriminate | lia] | discriminate].
Qed.

(** X8: for a well-formed matrix and [0 <= rrow < n_row], [remove_row]
    returns the matrix without that row: one row less, the same columns,
    the rows before [rrow] in place and the later ones moved up. *)
Theorem remove_row_entries (m : matrix) (rrow : Z) :
  wf m -> (0 <= rrow < Z.of_nat (n_row m))%Z ->
  exists m' : matrix,
    remove_row m rrow = inr (Some m')
    /\ n_row m' = (n_row m - 1)%nat
    /\ n_col m' = n_col m
    /\ (forall i j,
          entry m' i j
          = entry m (if (Z.of_nat i <? rrow)%Z then i else S i) j).
Proof.
  intros Hwf Hr. eexists. split; [now apply remove_row_rows |].
  split; [reflexivity |]. split; [reflexivity |].
  intros i j. unfold entry. cbn [rows]. rewrite without_nth.
  destruct (Nat.ltb_spec i (Z.to_nat rrow));
    destruct (Z.ltb_spec (Z.of_nat i) rrow); try lia; reflexivity.
Qed.

Lemma remove_row_entries_witness :
  exists m' : matrix,
    remove_row (mkMatrix 2 2 [[1; 2]; [3; 4]]) 0 = inr (Some m')
    /\ n_row m' = 1%nat /\ entry m' 0 1 = 4.
Proof.
  destruct (remove_row_entries (mkMatrix 2 2 [[1; 2]; [3; 4]]) 0)
    as [m' [Hrun [Hr [_ He]]]].
  - split; [reflexivity | repeat constructor].
  - cbn. lia.
  - exists m'. split; [exact Hrun |]. split; [exact Hr |].
    rewrite He. reflexivity.
Defined.

(** X9: as the docstring advises, a column index past the end makes
    [remove_row_and_col] remove the row alone: for a row index inside
    the matrix it then returns what [remove_row] returns. *)
Theorem remove_row_and_col_row_only (m : matrix) (rrow rcol : Z) :
  wf m -> (0 <= rrow < Z.of_nat (n_row m))%Z ->
  (Z.of_nat (n_col m) <= rcol)%Z ->
  remove_row_and_col m rrow rcol = remove_row m rrow.
Proof.
  intros Hwf Hr Hc. rewrite remove_row_rows by assumption.
  destruct (remove_row_and_col_rows m rrow rcol) as [m' [E Hm']];
    [lia | lia |].
  destruct (Hm' Hwf) as [Hrows [Hnr Hnc]]. destruct Hwf as [Hlen Hall].
  rewrite E. do 2 f_equal. apply matrix_eq; cbn [rows n_row n_col].
  - rewrite Hnr, without_length, Hlen.
    destruct (Nat.ltb_spec (Z.to_nat rrow) (n_row m)); lia.
  - rewrite Hnc. destruct (Nat.ltb_spec (Z.to_nat rcol) (n_col m)); lia.
  - rewrite Hrows.
    rewrite <- (map_id (without (Z.to_nat rrow) (rows m))) at 2.
    apply map_ext_in. intros r Hin. apply without_past_end.
    assert (Hrl : length r = n_col m).
    { unfold without in Hin. apply in_app_or in Hin.
      destruct Hin as [Hin | Hin].
      - exact (proj1 (Forall_forall _ _)
                 (Forall_firstn _ (Z.to_nat rrow) _ Hall) r Hin).
      - exact (proj1 (Forall_forall _ _)
                 (Forall_skipn _ (S (Z.to_nat rrow)) _ Hall) r Hin). }
    lia.
Qed.

Lemma remove_row_and_col_row_only_witness :
  remove_row_and_col (mkMatrix 3 3 [[1; 2; 3]; [4; 5; 6]; [7; 8; 9]]) 1 10
  = remove_row (mkMatrix 3 3 [[1; 2; 3]; [4; 5; 6]; [7; 8; 9]]) 1.
Proof.
  apply (remove_row_and_col_row_only
           (mkMatrix 3 3 [[1; 2; 3]; [4; 5; 6]; [7; 8; 9]]) 1 10).
  - split; [reflexivity | repeat constructor].
  - cbn. lia.
  - cbn. lia.
Defined.

(** X10: removing the row and the column that [expand_matrix] added
    gives the matrix back. *)
Theorem expand_then_remove_row_and_col (m : matrix) :
  wf m ->
  (m' <- expand_matrix m true true ;;
   remove_row_and_col m' (Z.of_nat (n_row m)) (Z.of_nat (n_col m)))
  = inr (Some m).
Proof.
  intros Hwf.
  pose proof (wf_expanded m true true _ Hwf
                (expand_matrix_rows m true true Hwf)) as Hwf'.
  rewrite expand_matrix_rows by exact Hwf. cbn [bind Monad_either].
  match goal with
  | |- remove_row_and_col ?big _ _ = _ =>
      destruct (remove_row_and_col_rows big (Z.of_nat (n_row m))
                  (Z.of_nat (n_col m))) as [m' [E Hm']]; [lia | lia |]
  end.
  destruct (Hm' Hwf') as [Hrows [Hnr Hnc]]. destruct Hwf as [Hlen Hall].
  rewrite E. do 2 f_equal. cbn [rows n_row n_col] in Hrows, Hnr, Hnc.
  rewrite !Nat2Z.id in *.
  assert (Hcut : without (n_row m)
                   (map (fun r => r ++ [0]) (rows m)
                    ++ [repeat 0 (n_col m + 1)])
                 = map (fun r => r ++ [0]) (rows m)).
  { rewrite <- Hlen, <- (length_map (fun r : list Q => r ++ [0]) (rows m)).
    apply without_app_one. }
  rewrite Hcut in Hrows, Hnr. apply matrix_eq.
  - now rewrite Hnr, length_map.
  - rewrite Hnc. destruct (Nat.ltb_spec (n_col m) (n_col m + 1)); lia.
  - rewrite Hrows, map_map. rewrite <- (map_id (rows m)) at 2.
    apply map_ext_in. intros r Hin.
    rewrite <- (proj1 (Forall_forall _ _) Hall r Hin).
    apply without_app_one.
Qed.

Lemma expand_then_remove_row_and_col_witness :
  (m' <- expand_matrix (mkMatrix 2 2 [[1; 2]; [3; 4]]) true true ;;
   remove_row_and_col m' 2 2)
  = inr (Some (mkMatrix 2 2 [[1; 2]; [3; 4]])).
Proof.
  apply (expand_then_remove_row_and_col (mkMatrix 2 2 [[1; 2]; [3; 4]])).
  split; [reflexivity | repeat constructor].
Defined.

(** X11: removing the row that [expand_matrix] added gives the matrix
    back. *)
Theorem expand_then_remove_row (m : matrix) :
  wf m ->
  (m' <- expand_matrix m true false ;; remove_row m' (Z.of_nat (n_row m)))
  = inr (Some m).
Proof.
  intros Hwf.
  pose proof (wf_expanded m true false _ Hwf
                (expand_matrix_rows m true false Hwf)) as Hwf'.
  rewrite expand_matrix_rows by exact Hwf. cbn [bind Monad_either].
  rewrite remove_row_rows by (try exact Hwf'; cbn [n_row]; lia).
  destruct Hwf as [Hlen Hall]. do 2 f_equal. apply matrix_eq;
    cbn [rows n_row n_col]; [lia | reflexivity |].
  rewrite Nat2Z.id, <- Hlen. apply without_app_one.
Qed.

Lemma expand_then_remove_row_witness :
  (m' <- expand_matrix (mkMatrix 2 2 [[1; 2]; [3; 4]]) true false ;;
   remove_row m' 2)
  = inr (Some (mkMatrix 2 2 [[1; 2]; [3; 4]])).
Proof.
  apply (expand_then_remove_row (mkMatrix 2 2 [[1; 2]; [3; 4]])).
  split; [reflexivity | repeat constructor].
Defined.

(** ** The sweep iterators *)

Example run_lin_axis :
  match lin_axis_iterator.__init__ 10 0 4 with
  | inr s =>
      map (fun n => lin_axis_iterator.call n s) (seq 0 6)
      = [inr 0; inr (0 + (10 - 0) / 4);
         inr (0 + (10 - 0) / 4 + (10 - 0) / 4);
         inr (0 + (10 - 0) / 4 + (10 - 0) / 4 + (10 - 0) / 4);
         inl StopIteration; inl StopIteration]
  | inl _ => False
  end.
Proof. reflexivity. Qed.

Section LinAxis.

Import lin_axis_iterator.

Variables (inc0 max0 min0 : Q) (nsteps0 : Z).

Lemma lin_after_running (n : nat) :
  (Z.of_nat n <= Z.max 1 nsteps0)%Z ->
  exists c : Q,
    after n (fresh inc0 max0 min0 nsteps0)
    = mkSelf inc0 max0 min0 (Z.of_nat n) c nsteps0
    /\ c == min0 + inc0 * inject_Z (Z.of_nat (n - 1)).
Proof.
  induction n as [| n IH]; intros Hn.
  - exists min0. split; [reflexivity |]. cbn. ring.
  - destruct IH as [c [Hs Hc]]; [lia |].
    cbn [after]. rewrite Hs. unfold next.
    cbn [index current inc max min nsteps].
    destruct (Z.eqb_spec (Z.of_nat n) 0) as [E0 | E0].
    + assert (n = 0)%nat by lia. subst n. exists c. cbn [snd].
      split; [reflexivity | exact Hc].
    + destruct (Z.ltb_spec (Z.of_nat n) nsteps0) as [Hlt | Hge]; [| lia].
      exists (c + inc0). cbn [snd]. split; [f_equal; lia |].
      rewrite Hc. replace (S n - 1)%nat with (S (n - 1)) by lia.
      rewrite Nat2Z.inj_succ, <- Z.add_1_r, inject_Z_plus. ring.
Qed.

Lemma lin_next_done (c : Q) (i : Z) :
  (1 <= i)%Z -> (nsteps0 <= i)%Z ->
  next (mkSelf inc0 max0 min0 i c nsteps0)
  = (inl StopIteration, mkSelf inc0 max0 min0 i c nsteps0).
Proof.
  intros H1 H2. unfold next. cbn [index current inc max min nsteps].
  destruct (Z.eqb_spec i 0); [lia |].
  destruct (Z.ltb_spec i nsteps0); [lia | reflexivity].
Qed.

Lemma lin_after_done (n : nat) :
  (Z.max 1 nsteps0 <= Z.of_nat n)%Z ->
  after n (fresh inc0 max0 min0 nsteps0)
  = after (Z.to_nat (Z.max 1 nsteps0)) (fresh inc0 max0 min0 nsteps0).
Proof.
  intros Hn.
  replace n with ((n - Z.to_nat (Z.max 1 nsteps0))
                  + Z.to_nat (Z.max 1 nsteps0))%nat by lia.
  induction (n - Z.to_nat (Z.max 1 nsteps0))%nat as [| k IH];
    [reflexivity |].
  cbn [Nat.add after]. rewrite IH.
  destruct (lin_after_running (Z.to_nat (Z.max 1 nsteps0))) as [c [Hs _]];
    [lia |].
  rewrite Hs, lin_next_done by lia. reflexivity.
Qed.


Lemma lin_call_done (n : nat) :
  (Z.max 1 nsteps0 <= Z.of_nat n)%Z ->
  call n (fresh inc0 max0 min0 nsteps0) = inl StopIteration.
Proof.
  intros Hn. unfold call. rewrite lin_after_done by exact Hn.
  destruct (lin_after_running (Z.to_nat (Z.max 1 nsteps0))) as [c [Hs _]];
    [lia |].
  rewrite Hs, lin_next_done by lia. reflexivity.
Qed.

End LinAxis.





(** X14: a [lin_axis_iterator] built with a negative [nsteps] still
    yields one value, [min], before it raises StopIteration, although
    [__getitem__] returns None at every index from 0 on; with
    [nsteps = 0] the constructor raises ZeroDivisionError. *)
Theorem lin_axis_nonpositive_nsteps (max min : Q) (nsteps : Z) :
  (nsteps <= 0)%Z ->
  match lin_axis_iterator.__init__ max min nsteps with
  | inl e => nsteps = 0%Z /\ e = ZeroDivisionError
  | inr s =>
      (nsteps < 0)%Z
      /\ lin_axis_iterator.call 0 s = inr min
      /\ (forall j : nat,
            (1 <= j)%nat -> lin_axis_iterator.call j s = inl StopIteration)
      /\ (forall i : Z,
            (0 <= i)%Z -> lin_axis_iterator.__getitem__ s i = None)
  end.
Proof.
  intros Hn. unfold lin_axis_iterator.__init__.
  destruct (Z.eqb_spec nsteps 0) as [E | E]; [split; [exact E | reflexivity] |].
  split; [lia |]. split; [reflexivity |]. split.
  - intros j Hj.
    change (lin_axis_iterator.mkSelf ((max - min) / inject_Z nsteps)
              max min 0 min nsteps)
      with (lin_axis_iterator.fresh ((max - min) / inject_Z nsteps)
              max min nsteps).
    apply lin_call_done. lia.
  - intros i Hi. unfold lin_axis_iterator.__getitem__.
    cbn [lin_axis_iterator.nsteps].
    destruct (Z.ltb_spec i nsteps); [lia | reflexivity].
Qed.

Lemma lin_axis_nonpositive_nsteps_witness :
  lin_axis_iterator.call 0
    (lin_axis_iterator.mkSelf ((10 - 0) / inject_Z (-2)) 10 0 0 0 (-2))
  = inr 0
  /\ lin_axis_iterator.call 1
       (lin_axis_iterator.mkSelf ((10 - 0) / inject_Z (-2)) 10 0 0 0 (-2))
     = inl StopIteration.
Proof.
  pose proof (lin_axis_nonpositive_nsteps 10 0 (-2) ltac:(lia)) as H.
  cbn [lin_axis_iterator.__init__ Z.eqb] in H.
  destruct H as [_ [H0 [H1 _]]]. split; [exact H0 | apply H1; lia].
Defined.

Section LogAxis.

Import log_axis_iterator.

Variables (inc0 max0 min0 : Q) (nsteps0 : Z).






End LogAxis.



(** ** combinations *)

Example run_combinations :
  match combinations.__init__ [1%nat; 2%nat; 3%nat; 4%nat] 2 with
  | inr s =>
      combinations.calls 8 10 s
      = [inr [1%nat; 2%nat]; inr [1%nat; 3%nat]; inr [1%nat; 4%nat];
         inr [2%nat; 3%nat]; inr [2%nat; 4%nat]; inr [3%nat; 4%nat];
         inl StopIteration; inl StopIteration]
  | inl _ => False
  end.
Proof. reflexivity. Qed.

Example run_combinations_three :
  match combinations.__init__ [1%nat; 2%nat; 3%nat; 4%nat; 5%nat] 3 with
  | inr s =>
      combinations.calls 12 6 s
      = map inr (combinations.combs [1%nat; 2%nat; 3%nat; 4%nat; 5%nat] 3)
        ++ [inl StopIteration; inl StopIteration]
  | inl _ => False
  end.
Proof. reflexivity. Qed.

Section Combinations.

Import combinations.

Context {A : Type}.

Lemma skipn_cons_nth (L : list A) (i : nat) (a : A) :
  nth_error L i = Some a -> skipn i L = a :: skipn (S i) L.
Proof.
  revert i. induction L as [| b L IH]; intros [| i] H; try discriminate.
  - injection H as ->. reflexivity.
  - cbn [nth_error] in H. cbn [skipn]. now apply IH.
Qed.

Lemma combs_one (L : list A) : combs L 1 = map (fun a => [a]) L.
Proof.
  induction L as [| a L IH]; [reflexivity |].
  cbn [combs map]. rewrite IH. now destruct L.
Qed.

Lemma combs_too_short (L : list A) (k : nat) :
  (length L < k)%nat -> combs L k = [].
Proof.
  revert k. induction L as [| a L IH]; intros [| k] H; cbn in H; try lia;
    [reflexivity |].
  cbn [combs]. rewrite (IH k), (IH (S k)) by lia. reflexivity.
Qed.

Lemma combs_nonempty (L : list A) (k : nat) :
  (k <= length L)%nat -> combs L k <> [].
Proof.
  revert k. induction L as [| a L IH]; intros [| k] H; cbn in H;
    try discriminate; try lia.
  cbn [combs]. intros E. apply app_eq_nil in E. destruct E as [E _].
  apply map_eq_nil in E. revert E. apply IH. lia.
Qed.

Lemma combs_cons (a : A) (L : list A) (k : nat) :
  combs (a :: L) (S k) = map (cons a) (combs L k) ++ combs L (S k).
Proof. reflexivity. Qed.

(** A new iterator has every combination left. *)
Lemma remaining_new (L : list A) (k : Z) :
  (1 <= k <= Z.of_nat (length L))%Z ->
  remaining (mkSelf L k None 0) = combs L (Z.to_nat k).
Proof.
  intros Hk. cbn [remaining].
  destruct (Z.gtb_spec k 1) as [Hgt | Hle].
  - destruct L as [| a L]; [cbn in Hk; lia |]. cbn [nth_error skipn].
    replace (Z.to_nat k) with (S (Z.to_nat (k - 1))) by lia.
    reflexivity.
  - replace k with 1%Z by lia. cbn [skipn]. now rewrite combs_one.
Qed.

Lemma init_accepts (L : list A) (k : Z) :
  (1 <= k <= Z.of_nat (length L))%Z ->
  __init__ L k = inr (mkSelf L k None 0).
Proof.
  intros Hk. unfold __init__.
  destruct (Z.ltb_spec (Z.of_nat (length L)) k); [lia |].
  destruct (Z.leb_spec k 0); [lia | reflexivity].
Qed.

Lemma reachable_new (L : list A) (k : Z) :
  (1 <= k <= Z.of_nat (length L))%Z -> reachable (mkSelf L k None 0).
Proof.
  intros Hk. cbn [reachable]. split; [lia |]. split; [| exact I].
  destruct (Z.gtb_spec k 1); lia.
Qed.

End Combinations.

Section CombinationsNext.

Import combinations.

Context {A : Type}.

Lemma next_unfold (d : nat) (L : list A) (k : Z) (sub : option self)
  (i : nat) :
  next (S d) (mkSelf L k sub i)
  = if (k >? 1)%Z then
      match (match sub with
             | None => __init__ (skipn (i + 1) L) (k - 1)
             | Some it => inr it
             end) with
      | inl e => (inl e, mkSelf L k sub i)
      | inr it =>
          match next d it with
          | (inr nxt, it') =>
              match nth_error L i with
              | Some cur => (inr ([cur] ++ nxt), mkSelf L k (Some it') i)
              | None => (inl ListIndexError, mkSelf L k (Some it') i)
              end
          | (inl StopIteration, it') =>
              if (Z.of_nat i >=? Z.of_nat (length L) - k)%Z
              then (inl StopIteration, mkSelf L k (Some it') i)
              else
                match __init__ (skipn (i + 1 + 1) L) (k - 1) with
                | inl e => (inl e, mkSelf L k (Some it') (i + 1))
                | inr it'' => next d (mkSelf L k (Some it'') (i + 1))
                end
          | (inl e, it') => (inl e, mkSelf L k (Some it') i)
          end
      end
    else
      if (i <? length L)%nat then
        match nth_error L i with
        | Some cur => (inr ([cur] ++ []), mkSelf L k sub (i + 1))
        | None => (inl ListIndexError, mkSelf L k sub i)
        end
      else (inl StopIteration, mkSelf L k sub i).
Proof. reflexivity. Qed.

(** The sub-iterator a call of [next] works with, the stored one or a
    new one over the tail, and what is left of [s] in terms of it. *)
Lemma sub_iterator (L : list A) (k : Z) (sub : option self) (i : nat)
  (cur : A) :
  reachable (mkSelf L k sub i) -> (k > 1)%Z -> nth_error L i = Some cur ->
  exists it : self,
    match sub with
    | None => __init__ (skipn (i + 1) L) (k - 1)
    | Some it => inr it
    end = inr it
    /\ reachable it
    /\ get_L it = skipn (S i) L
    /\ get_k it = (k - 1)%Z
    /\ remaining (mkSelf L k sub i)
       = map (cons cur) (remaining it) ++ combs (skipn (S i) L) (Z.to_nat k)
    /\ (ready (mkSelf L k sub i) -> remaining it <> []).
Proof.
  intros [Hk [Hi Hsub]] Hgt Hcur.
  destruct (Z.gtb_spec k 1) as [_ | Hle]; [| lia].
  assert (Hrem : forall r : list (list A),
             (if (k >? 1)%Z
              then match nth_error L i with
                   | Some cur0 => map (cons cur0) r
                   | None => []
                   end ++ combs (skipn (S i) L) (Z.to_nat k)
              else map (fun a => [a]) (skipn i L))
             = map (cons cur) r ++ combs (skipn (S i) L) (Z.to_nat k)).
  { intros r. destruct (Z.gtb_spec k 1); [| lia]. now rewrite Hcur. }
  destruct sub as [it |].
  - exists it. destruct Hsub as [Hr [HL Hk']].
    repeat (split; [assumption || reflexivity |]).
    split; [apply Hrem |]. intros Hready. exact Hready.
  - assert (Hlen : (1 <= k - 1 <= Z.of_nat (length (skipn (S i) L)))%Z)
      by (rewrite length_skipn; lia).
    rewrite Nat.add_1_r, init_accepts by exact Hlen.
    eexists. split; [reflexivity |].
    split; [now apply reachable_new |].
    split; [reflexivity |]. split; [reflexivity |].
    rewrite remaining_new by exact Hlen.
    split; [apply Hrem |]. intros _. apply combs_nonempty.
    rewrite length_skipn. lia.
Qed.

(** One call of [next] on a reachable object, with room for [2 * k]
    nested calls ([2 * k - 1] when the sub-iterator is ready), advances
    it. *)
Lemma next_advances (depth : nat) (s : @self A) :
  reachable s ->
  (2 * get_k s <= Z.of_nat depth)%Z
  \/ (ready s /\ (2 * get_k s - 1 <= Z.of_nat depth)%Z) ->
  advances s (fst (next depth s)) (snd (next depth s)).
Proof.
  revert s. induction depth as [| d IH]; intros [L k sub i] Hreach Hdepth.
  { destruct Hreach as [Hk _]. cbn [get_k] in Hdepth. lia. }
  pose proof Hreach as [Hk [Hi Hsub]]. cbn [get_k] in Hdepth.
  rewrite next_unfold. destruct (Z.gtb_spec k 1) as [Hgt | Hle].
  - (* k > 1: one item here, the others from the sub-iterator *)
    assert (Hcur : exists cur, nth_error L i = Some cur).
    { destruct (nth_error L i) as [cur |] eqn:E; [eauto |].
      apply nth_error_None in E. lia. }
    destruct Hcur as [cur Hcur].
    destruct (sub_iterator L k sub i cur Hreach ltac:(lia) Hcur)
      as [it [Eit [Hrit [HLit [Hkit [Hrem Hready]]]]]].
    rewrite Eit.
    assert (Hsubcall : advances it (fst (next d it)) (snd (next d it))).
    { apply IH; [exact Hrit |]. left. rewrite Hkit. lia. }
    destruct (next d it) as [out1 it'] eqn:En. cbn [fst snd] in Hsubcall.
    destruct Hsubcall as [Hrit' [HLit' [Hkit' Hhead]]].
    assert (Hreach' : forall j : nat,
               (Z.of_nat j + k <= Z.of_nat (length L))%Z ->
               get_L it' = skipn (S j) L ->
               reachable (mkSelf L k (Some it') j)).
    { intros j Hj HLj. cbn [reachable]. split; [exact Hk |].
      destruct (Z.gtb_spec k 1); [| lia]. split; [exact Hj |].
      split; [exact Hrit' |]. split; [exact HLj | congruence]. }
    destruct (remaining it) as [| c rest] eqn:Erem.
    + (* the sub-iterator is exhausted *)
      destruct Hhead as [-> Hrem'].
      destruct Hdepth as [Hd | [Hrdy _]];
        [| exfalso; now apply (Hready Hrdy)].
      cbn [map app] in Hrem.
      destruct (Z.geb_spec (Z.of_nat i) (Z.of_nat (length L) - k))
        as [Hlast | Hmore].
      * cbn [fst snd]. split; [apply Hreach'; [lia | congruence] |].
        split; [reflexivity |]. split; [reflexivity |].
        assert (Enone : combs (skipn (S i) L) (Z.to_nat k) = [])
          by (apply combs_too_short; rewrite length_skipn; lia).
        rewrite Hrem, Enone. split; [reflexivity |].
        cbn [remaining]. destruct (Z.gtb_spec k 1); [| lia].
        rewrite Hcur, Hrem', Enone. reflexivity.
      * assert (Hlen : (1 <= k - 1
                        <= Z.of_nat (length (skipn (i + 1 + 1) L)))%Z)
          by (rewrite length_skipn; lia).
        rewrite init_accepts by exact Hlen.
        set (s2 := mkSelf L k
                     (Some (mkSelf (skipn (i + 1 + 1) L) (k - 1) None 0))
                     (i + 1)).
        assert (Hnext : exists nxt, nth_error L (i + 1) = Some nxt).
        { destruct (nth_error L (i + 1)) as [nxt |] eqn:E; [eauto |].
          apply nth_error_None in E. lia. }
        destruct Hnext as [nxt Hnxt].
        assert (Hr2 : reachable s2).
        { subst s2. cbn [reachable]. split; [exact Hk |].
          destruct (Z.gtb_spec k 1); [| lia]. split; [lia |].
          split; [now apply reachable_new |].
          cbn [get_L get_k]. split; [| reflexivity].
          f_equal. lia. }
        assert (Hrem2 : remaining s2 = remaining (mkSelf L k sub i)).
        { rewrite Hrem. subst s2. cbn [remaining].
          destruct (Z.gtb_spec k 1); [| lia].
          rewrite Hnxt.
          fold (remaining (mkSelf (skipn (i + 1 + 1) L) (k - 1) None 0)).
          rewrite remaining_new by exact Hlen.
          replace (S i) with (i + 1)%nat by lia.
          rewrite (skipn_cons_nth L (i + 1) nxt Hnxt).
          replace (Z.to_nat k) with (S (Z.to_nat (k - 1))) by lia.
          rewrite combs_cons.
          replace (i + 1 + 1)%nat with (S (i + 1)) by lia. reflexivity. }
        assert (Hready2 : ready s2).
        { subst s2. cbn [ready]. rewrite remaining_new by exact Hlen.
          apply combs_nonempty. lia. }
        destruct (IH s2 Hr2) as [Hr' [HL' [Hk' Hhead']]].
        { right. split; [exact Hready2 |]. subst s2. cbn [get_k]. lia. }
        split; [exact Hr' |]. split; [exact HL' |]. split; [exact Hk' |].
        rewrite <- Hrem2. exact Hhead'.
    + (* the sub-iterator yields [c] *)
      destruct Hhead as [-> Hrem']. rewrite Hcur. cbn [fst snd].
      split; [apply Hreach'; [lia | congruence] |].
      split; [reflexivity |]. split; [reflexivity |].
      rewrite Hrem. cbn [map app]. split; [reflexivity |].
      cbn [remaining]. destruct (Z.gtb_spec k 1); [| lia].
      rewrite Hcur, Hrem'. reflexivity.
  - (* k = 1: the items one by one *)
    destruct (Z.gtb_spec k 1) as [| _]; [lia |].
    assert (Hnosub : sub = None).
    { destruct sub as [it |]; [| reflexivity].
      destruct Hsub as [Hr [_ Hk']]. destruct it as [L' k' sub' i'].
      destruct Hr as [Hk1 _]. cbn [get_k] in Hk'. lia. }
    subst sub. destruct (Nat.ltb_spec i (length L)) as [Hlt | Hge].
    + destruct (nth_error L i) as [cur |] eqn:Hcur;
        [| apply nth_error_None in Hcur; lia].
      cbn [fst snd]. split.
      { cbn [reachable]. split; [exact Hk |].
        destruct (Z.gtb_spec k 1); [lia |]. split; [lia | exact I]. }
      split; [reflexivity |]. split; [reflexivity |].
      cbn [remaining]. destruct (Z.gtb_spec k 1); [lia |].
      rewrite (skipn_cons_nth L i cur Hcur). cbn [map].
      split; [reflexivity |]. now rewrite Nat.add_1_r.
    + cbn [fst snd]. split; [exact Hreach |].
      split; [reflexivity |]. split; [reflexivity |].
      cbn [remaining]. destruct (Z.gtb_spec k 1); [lia |].
      rewrite skipn_all2 by lia. split; reflexivity.
Qed.

End CombinationsNext.

Section CombinationsRun.

Import combinations.

Context {A : Type}.

Lemma firstn_app_repeat {B : Type} (l : list B) (b : B) (n m : nat) :
  (n <= m)%nat -> firstn n (l ++ repeat b m) = firstn n (l ++ repeat b n).
Proof.
  revert n m. induction l as [| a l IH]; intros n m H.
  - cbn [app]. revert m H. induction n as [| n IHn]; intros m H;
      [reflexivity |].
    destruct m as [| m]; [lia |]. cbn. f_equal. apply IHn. lia.
  - destruct n as [| n]; [reflexivity |]. destruct m as [| m]; [lia |].
    cbn [app firstn]. f_equal.
    rewrite (IH n (S m)), (IH n (S n)) by lia. reflexivity.
Qed.

Lemma In_firstn {B : Type} (l : list B) (b : B) (n : nat) :
  In b (firstn n l) -> In b l.
Proof.
  revert n. induction l as [| a l IH]; intros [| n] H; cbn in H;
    try contradiction.
  destruct H as [-> | H]; [now left | right; now apply (IH n)].
Qed.

Lemma firstn_repeat_more {B : Type} (b : B) (m k : nat) :
  firstn m (repeat b (k + m)) = repeat b m.
Proof.
  induction m as [| m IH]; [reflexivity |].
  rewrite Nat.add_succ_r. cbn. now rewrite IH.
Qed.

(** The outcomes of [n] calls in a row: what is left, then
    StopIteration for ever. *)
Lemma calls_remaining (depth n m : nat) (s : @self A) :
  reachable s -> (2 * get_k s <= Z.of_nat depth)%Z -> (n <= m)%nat ->
  calls n depth s
  = firstn n (map inr (remaining s) ++ repeat (inl StopIteration) m).
Proof.
  revert s m. induction n as [| n IH]; intros s m Hreach Hdepth Hm;
    [reflexivity |].
  destruct m as [| m]; [lia |]. cbn [calls].
  destruct (next_advances depth s Hreach (or_introl Hdepth))
    as [Hr' [_ [Hk' Hhead]]].
  rewrite (IH _ m Hr') by (rewrite ?Hk'; assumption || lia).
  destruct (remaining s) as [| c rest]; destruct Hhead as [-> ->].
  - reflexivity.
  - cbn [map app firstn]. f_equal.
    rewrite (firstn_app_repeat _ _ n (S m)), (firstn_app_repeat _ _ n m)
      by lia.
    reflexivity.
Qed.

Lemma combs_zero (L : list A) : combs L 0 = [[]].
Proof. now destruct L. Qed.

Lemma NoDup_map_cons {B : Type} (b : B) (l : list (list B)) :
  NoDup l -> NoDup (map (cons b) l).
Proof.
  induction 1 as [| c l Hnotin Hnd IH]; cbn [map]; constructor;
    [| exact IH].
  intros Hin. apply in_map_iff in Hin. destruct Hin as [c' [E Hin]].
  injection E as ->. contradiction.
Qed.

Lemma combs_spec (L c : list A) (k : nat) :
  In c (combs L k) <-> subseq c L /\ length c = k.
Proof.
  revert c k. induction L as [| a L IH]; intros c k.
  - destruct k as [| k]; cbn [combs In].
    + split.
      * intros [<- | []]. split; [constructor | reflexivity].
      * intros [Hs Hl]. destruct c; [now left | discriminate].
    + split; [intros [] |]. intros [Hs Hl]. inversion Hs; subst.
      discriminate.
  - destruct k as [| k].
    + cbn [combs In]. split.
      * intros [<- | []]. split; [| reflexivity].
        constructor. apply (IH [] 0%nat). rewrite combs_zero. now left.
      * intros [_ Hl]. destruct c; [now left | discriminate].
    + rewrite combs_cons, in_app_iff, in_map_iff. split.
      * intros [[c' [<- Hin]] | Hin].
        -- apply IH in Hin. destruct Hin as [Hs Hl].
           split; [now constructor | cbn; now rewrite Hl].
        -- apply IH in Hin. destruct Hin as [Hs Hl].
           split; [now constructor | exact Hl].
      * intros [Hs Hl]. inversion Hs as [| a' c' L' Hs' | a' c' L' Hs']; subst.
        -- right. apply IH. now split.
        -- left. exists c'. split; [reflexivity |]. apply IH.
           split; [exact Hs' | cbn in Hl; lia].
Qed.

Lemma subseq_In (c L : list A) (a : A) : subseq c L -> In a c -> In a L.
Proof.
  intros Hs. induction Hs as [| b c L Hs IH | b c L Hs IH]; intros Hin.
  - exact Hin.
  - right. now apply IH.
  - destruct Hin as [-> | Hin]; [now left | right; now apply IH].
Qed.

Lemma combs_NoDup (L : list A) (k : nat) : NoDup L -> NoDup (combs L k).
Proof.
  revert k. induction L as [| a L IH]; intros k Hnd.
  - destruct k; cbn; repeat constructor. intros [].
  - destruct k as [| k]; [cbn; repeat constructor; intros [] |].
    inversion Hnd as [| a' L' Hnotin Hnd']; subst.
    rewrite combs_cons. apply NoDup_app; [| now apply IH |].
    + apply NoDup_map_cons. now apply IH.
    + intros c Hin1 Hin2. apply in_map_iff in Hin1.
      destruct Hin1 as [c' [<- _]]. apply combs_spec in Hin2.
      destruct Hin2 as [Hs _]. apply Hnotin.
      apply (subseq_In _ _ a Hs). now left.
Qed.

Lemma combs_length (L : list A) (k : nat) :
  length (combs L k) = binomial (length L) k.
Proof.
  revert k. induction L as [| a L IH]; intros [| k]; try reflexivity.
  rewrite combs_cons, length_app, length_map, !IH. reflexivity.
Qed.

End CombinationsRun.

(** [combinations(L, k)] raises Exception exactly when [k] exceeds
    the size of [L] or is not positive, and otherwise builds an iterator
    at its start; a subset as large as the set is accepted. *)
Theorem combinations_init_accepts_iff {A : Type} (L : list A) (k : Z) :
  ((1 <= k <= Z.of_nat (length L))%Z ->
   combinations.__init__ L k = inr (combinations.mkSelf L k None 0))
  /\ ((Z.of_nat (length L) < k)%Z ->
      combinations.__init__ L k = inl (Exception messages.set_too_small))
  /\ ((k <= 0)%Z ->
      combinations.__init__ L k = inl (Exception messages.size_not_positive)).
Proof.
  unfold combinations.__init__.
  destruct (Z.ltb_spec (Z.of_nat (length L)) k);
    destruct (Z.leb_spec k 0); repeat split; intros; try lia; reflexivity.
Qed.

(** X16: for [1 <= k <= len(L)] and room for [2 * k] nested calls, the
    outcomes of any number of [next] calls on [combinations(L, k)] are
    the [k]-combinations of [L] in the order of their indices, each
    once, followed by StopIteration at every further call. *)
Theorem combinations_iterates_in_order {A : Type} (L : list A) (k : Z)
  (depth n : nat) :
  (1 <= k <= Z.of_nat (length L))%Z -> (2 * k <= Z.of_nat depth)%Z ->
  exists s : combinations.self,
    combinations.__init__ L k = inr s
    /\ combinations.calls n depth s
       = firstn n (map inr (combinations.combs L (Z.to_nat k))
                   ++ repeat (inl StopIteration) n).
Proof.
  intros Hk Hdepth. eexists. split; [now apply init_accepts |].
  rewrite (calls_remaining depth n n)
    by (try apply reachable_new; cbn [combinations.get_k]; lia).
  now rewrite remaining_new.
Qed.

Lemma combinations_iterates_in_order_witness :
  exists s : combinations.self,
    combinations.__init__ [1%nat; 2%nat; 3%nat] 2 = inr s
    /\ combinations.calls 5 4 s
       = firstn 5 (map inr (combinations.combs [1%nat; 2%nat; 3%nat]
                              (Z.to_nat 2))
                   ++ repeat (inl StopIteration) 5).
Proof.
  apply (combinations_iterates_in_order [1%nat; 2%nat; 3%nat] 2 4 5);
    cbn; lia.
Defined.

(** X17: the lists [combinations(L, k)] yields are exactly the
    sub-lists of [L] with [k] items, kept in the order of [L]. *)
Theorem combinations_yields_subsequences {A : Type} (L : list A) (k : Z)
  (depth : nat) (c : list A) :
  (1 <= k <= Z.of_nat (length L))%Z -> (2 * k <= Z.of_nat depth)%Z ->
  (exists n : nat,
     In (inr c)
        (combinations.calls n depth (combinations.mkSelf L k None 0)))
  <-> combinations.subseq c L /\ length c = Z.to_nat k.
Proof.
  intros Hk Hdepth. rewrite <- combs_spec. split.
  - intros [n Hin].
    rewrite (calls_remaining depth n n) in Hin
      by (try apply reachable_new; cbn [combinations.get_k]; lia).
    rewrite remaining_new in Hin by exact Hk.
    apply In_firstn in Hin.
    apply in_app_or in Hin. destruct Hin as [Hin | Hin].
    + apply in_map_iff in Hin. destruct Hin as [c' [E Hin]].
      now injection E as <-.
    + apply repeat_spec in Hin. discriminate.
  - intros Hin.
    set (l := combinations.combs L (Z.to_nat k)) in *.
    exists (length l).
    rewrite (calls_remaining depth (length l) (length l))
      by (try apply reachable_new; cbn [combinations.get_k]; lia).
    rewrite remaining_new by exact Hk. fold l.
    apply (in_map (@inr PyError (list A))) in Hin.
    apply In_nth_error in Hin. destruct Hin as [m Hm].
    assert (Hlt : (m < length l)%nat).
    { rewrite <- (length_map (@inr PyError (list A))).
      apply nth_error_Some. congruence. }
    apply (nth_error_In _ m).
    rewrite nth_error_firstn. destruct (Nat.ltb_spec m (length l)); [| lia].
    rewrite nth_error_app1 by now rewrite length_map. exact Hm.
Qed.

Lemma combinations_yields_subsequences_witness :
  exists n : nat,
    In (inr [1%nat; 3%nat])
       (combinations.calls n 4
          (combinations.mkSelf [1%nat; 2%nat; 3%nat] 2 None 0)).
Proof.
  apply (combinations_yields_subsequences [1%nat; 2%nat; 3%nat] 2 4
           [1%nat; 3%nat]); [cbn; lia | lia |].
  split; [| reflexivity].
  apply combinations.subseq_take, combinations.subseq_skip,
    combinations.subseq_take, combinations.subseq_nil.
Defined.

(** X18: when the items of [L] are distinct, [combinations(L, k)] yields
    no list twice. *)
Theorem combinations_never_repeats {A : Type} (L : list A) (k : Z)
  (depth n i j : nat) (c : list A) :
  NoDup L ->
  (1 <= k <= Z.of_nat (length L))%Z -> (2 * k <= Z.of_nat depth)%Z ->
  nth_error (combinations.calls n depth (combinations.mkSelf L k None 0)) i
  = Some (inr c) ->
  nth_error (combinations.calls n depth (combinations.mkSelf L k None 0)) j
  = Some (inr c) ->
  i = j.
Proof.
  intros Hnd Hk Hdepth.
  rewrite (calls_remaining depth n n)
    by (try apply reachable_new; cbn [combinations.get_k]; lia).
  rewrite remaining_new by exact Hk.
  set (l := combinations.combs L (Z.to_nat k)).
  assert (Hat : forall m : nat,
             nth_error (firstn n (map inr l ++ repeat (inl StopIteration) n)) m
             = Some (inr c) ->
             (m < length l)%nat /\ nth_error l m = Some c).
  { intros m Hm.
    assert (Hm' : nth_error (map inr l ++ repeat (@inl PyError (list A)
                                                    StopIteration) n) m
                  = Some (inr c)).
    { destruct (Nat.lt_ge_cases m n) as [Hlt | Hge].
      - now rewrite nth_error_firstn in Hm;
          destruct (Nat.ltb_spec m n); [| lia].
      - rewrite (proj2 (nth_error_None _ _)) in Hm; [discriminate |].
        rewrite length_firstn. lia. }
    destruct (Nat.lt_ge_cases m (length l)) as [Hlt | Hge].
    - split; [exact Hlt |].
      rewrite nth_error_app1 in Hm' by now rewrite length_map.
      rewrite nth_error_map in Hm'.
      destruct (nth_error l m); [| discriminate].
      cbn in Hm'. now injection Hm' as ->.
    - rewrite nth_error_app2 in Hm' by now rewrite length_map.
      apply nth_error_In, repeat_spec in Hm'. discriminate. }
  intros Hi Hj. apply Hat in Hi. apply Hat in Hj.
  destruct Hi as [Hil Hi]. destruct Hj as [_ Hj].
  apply (proj1 (NoDup_nth_error l) (combs_NoDup L (Z.to_nat k) Hnd) i j Hil).
  congruence.
Qed.

Lemma combinations_never_repeats_witness :
  NoDup [1%nat; 2%nat; 3%nat]
  /\ nth_error (combinations.calls 5 4
                  (combinations.mkSelf [1%nat; 2%nat; 3%nat] 2 None 0)) 1
     = Some (inr [1%nat; 3%nat])
  /\ 1%nat = 1%nat.
Proof.
  assert (Hnd : NoDup [1%nat; 2%nat; 3%nat])
    by (repeat constructor; cbn; intuition discriminate).
  split; [exact Hnd |]. split; [reflexivity |].
  apply (combinations_never_repeats [1%nat; 2%nat; 3%nat] 2 4 5 1 1
           [1%nat; 3%nat] Hnd); [cbn; lia | lia | reflexivity | reflexivity].
Defined.

(** X19: [combinations(L, k)] yields as many lists as there are
    [k]-subsets of a set of [len(L)] items, and raises StopIteration at
    the call after the last of them. *)
Theorem combinations_count {A : Type} (L : list A) (k : Z) (depth m : nat) :
  (1 <= k <= Z.of_nat (length L))%Z -> (2 * k <= Z.of_nat depth)%Z ->
  exists yielded : list (list A),
    combinations.calls
      (combinations.binomial (length L) (Z.to_nat k) + m) depth
      (combinations.mkSelf L k None 0)
    = map inr yielded ++ repeat (inl StopIteration) m
    /\ length yielded = combinations.binomial (length L) (Z.to_nat k).
Proof.
  intros Hk Hdepth. exists (combinations.combs L (Z.to_nat k)).
  split; [| apply combs_length].
  rewrite (calls_remaining depth _
             (combinations.binomial (length L) (Z.to_nat k) + m))
    by (try apply reachable_new; cbn [combinations.get_k]; lia).
  rewrite remaining_new by exact Hk. rewrite <- combs_length.
  rewrite <- (length_map (@inr PyError (list A))) at 1.
  rewrite firstn_app, length_map.
  rewrite firstn_all2 by (rewrite length_map; lia).
  f_equal.
  replace (length (combinations.combs L (Z.to_nat k)) + m
           - length (combinations.combs L (Z.to_nat k)))%nat with m by lia.
  apply firstn_repeat_more.
Qed.

Lemma combinations_count_witness :
  exists yielded : list (list nat),
    combinations.calls
      (combinations.binomial (length [1%nat; 2%nat; 3%nat]) (Z.to_nat 2) + 2)
      4 (combinations.mkSelf [1%nat; 2%nat; 3%nat] 2 None 0)
    = map inr yielded ++ repeat (inl StopIteration) 2
    /\ length yielded
       = combinations.binomial (length [1%nat; 2%nat; 3%nat]) (Z.to_nat 2).
Proof.
  apply (combinations_count [1%nat; 2%nat; 3%nat] 2 4 2); cbn; lia.
Defined.

(** ** More on the convergence checks *)


(** X20: for binary64 vectors of one length, with finite entries of [x]
    and [residuum] and no overflowing sum, and a partition index in
    [0, len(x)], [convergence_check] returns [(b, [])], and [b] is true
    exactly when every index passes the rounded step test and the
    residual test with the tolerances of its side: [ver], [vea] and
    residual tolerance [iea] below the partition index, [ier], [iea] and
    residual tolerance [vea] from it on. *)
Theorem convergence_check_per_index (options : binary64.Options)
  (x dx residuum : list PrimFloat.float) (nv_minus_one : Z) (debug : bool) :
  length dx = length x -> length residuum = length x ->
  (0 <= nv_minus_one <= Z.of_nat (length x))%Z ->
  binary64.all_finite x = true -> binary64.sums_finite x dx = true ->
  binary64.all_finite residuum = true ->
  exists b : bool,
    binary64.convergence_check options x dx residuum nv_minus_one debug
    = inr (b, [])
    /\ (b = true <->
        forall i, (i < length x)%nat ->
          if (Z.of_nat i <? nv_minus_one)%Z
          then binary64.step_close x dx
                 (binary64.ver options) (binary64.vea options) i = true
               /\ binary64.residual_close residuum (binary64.iea options) i
                  = true
          else binary64.step_close x dx
                 (binary64.ier options) (binary64.iea options) i = true
               /\ binary64.residual_close residuum (binary64.vea options) i
                  = true).
Proof.
  intros Hdx Hr Hnv Hfx Hfs Hfr.
  unfold binary64.convergence_check.
  rewrite !b64_slice_to_in_range, !b64_slice_from_in_range
    by (rewrite ?Hdx, ?Hr; exact Hnv).
  unfold binary64.voltage_convergence_check,
    binary64.current_convergence_check.
  set (n := Z.to_nat nv_minus_one).
  destruct (b64_aggregate_iff (firstn n x) (firstn n dx) (firstn n residuum)
              (binary64.ver options) (binary64.vea options)
              (binary64.iea options) PrimFloat.abs)
    as [vb [Hv Hvb]];
    [now rewrite !length_firstn, Hdx
    | now rewrite !length_firstn, Hr
    | now apply b64_all_finite_firstn
    | now apply b64_sums_finite_firstn
    | now apply b64_all_finite_firstn |].
  destruct (b64_aggregate_iff (skipn n x) (skipn n dx) (skipn n residuum)
              (binary64.ier options) (binary64.iea options)
              (binary64.vea options) PrimFloat.abs)
    as [ib [Hi Hib]];
    [now rewrite !length_skipn, Hdx
    | now rewrite !length_skipn, Hr
    | now apply b64_all_finite_skipn
    | now apply b64_sums_finite_skipn
    | now apply b64_all_finite_skipn |].
  rewrite Hv. cbn [bind Monad_either]. rewrite Hi.
  cbn [bind Monad_either ret app].
  exists (vb && ib). split; [reflexivity |].
  rewrite andb_true_iff, Hvb, Hib, length_firstn, length_skipn.
  unfold binary64.step_close, binary64.residual_close. split.
  - intros [Hpre Hsuf] i Hilt.
    destruct (Z.ltb_spec (Z.of_nat i) nv_minus_one) as [Hlow | Hhigh].
    + specialize (Hpre i ltac:(lia)). rewrite !nth_firstn in Hpre.
      destruct (Nat.ltb_spec i n); [exact Hpre | lia].
    + specialize (Hsuf (i - n)%nat ltac:(lia)). rewrite !nth_skipn in Hsuf.
      replace (n + (i - n))%nat with i in Hsuf by lia. exact Hsuf.
  - intros H. split; intros i Hilt.
    + specialize (H i ltac:(lia)).
      destruct (Z.ltb_spec (Z.of_nat i) nv_minus_one); [| lia].
      rewrite !nth_firstn. destruct (Nat.ltb_spec i n); [exact H | lia].
    + specialize (H (n + i)%nat ltac:(lia)).
      destruct (Z.ltb_spec (Z.of_nat (n + i)) nv_minus_one); [lia |].
      rewrite !nth_skipn. exact H.
Qed.

Lemma convergence_check_per_index_witness :
  exists b : bool,
    binary64.convergence_check binary64.sample.options binary64.sample.x
      binary64.sample.dx binary64.sample.residuum 1 true
    = inr (b, [])
    /\ (b = true <->
        forall i, (i < 3)%nat ->
          if (Z.of_nat i <? 1)%Z
          then binary64.step_close binary64.sample.x binary64.sample.dx
                 binary64.constants.half binary64.constants.half i = true
               /\ binary64.residual_close binary64.sample.residuum
                    binary64.constants.half i = true
          else binary64.step_close binary64.sample.x binary64.sample.dx
                 binary64.constants.half binary64.constants.half i = true
               /\ binary64.residual_close binary64.sample.residuum
                    binary64.constants.half i = true).
Proof.
  apply (convergence_check_per_index binary64.sample.options
           binary64.sample.x binary64.sample.dx binary64.sample.residuum
           1 true);
    try reflexivity. cbn. lia.
Defined.

(** X21: a partition index outside [0, len(x)] is not rejected: on
    vectors of one length [convergence_check] treats any integer as
    Python slicing does, so it returns what it returns at the index
    clamped to the range, a negative index counting from the end. *)
Theorem convergence_check_clamps_index (options : Options)
  (x dx residuum : list Q) (nv_minus_one : Z) (debug : bool) :
  length dx = length x -> length residuum = length x ->
  convergence_check options x dx residuum nv_minus_one debug
  = convergence_check options x dx residuum
      (if (nv_minus_one <? 0)%Z
       then Z.max 0 (Z.of_nat (length x) + nv_minus_one)
       else Z.min nv_minus_one (Z.of_nat (length x)))
      debug.
Proof.
  intros Hdx Hr.
  unfold convergence_check, numpy.slice_to, numpy.slice_from, numpy.shape0.
  rewrite Hdx, Hr.
  set (k := if (nv_minus_one <? 0)%Z
            then Z.max 0 (Z.of_nat (length x) + nv_minus_one)
            else Z.min nv_minus_one (Z.of_nat (length x))).
  assert (E : numpy.slice_bound (length x) k
              = numpy.slice_bound (length x) nv_minus_one).
  { subst k. unfold numpy.slice_bound at 2.
    destruct (Z.ltb_spec nv_minus_one 0);
      rewrite slice_bound_in_range by lia; lia. }
  rewrite E. reflexivity.
Qed.

Lemma convergence_check_clamps_index_witness :
  convergence_check opts0 [5; 2; 3] [0; 1; 0] [0; 0; 0] 9 false
  = convergence_check opts0 [5; 2; 3] [0; 1; 0] [0; 0; 0] 3 false
  /\ convergence_check opts0 [5; 2; 3] [0; 1; 0] [0; 0; 0] (-1) false
     = convergence_check opts0 [5; 2; 3] [0; 1; 0] [0; 0; 0] 2 false.
Proof.
  split.
  - apply (convergence_check_clamps_index opts0 [5; 2; 3] [0; 1; 0]
             [0; 0; 0] 9 false); reflexivity.
  - apply (convergence_check_clamps_index opts0 [5; 2; 3] [0; 1; 0]
             [0; 0; 0] (-1) false); reflexivity.
Defined.



(** X23: a residual tolerance that is not positive blocks the debug
    branch on vectors that are not empty: its strict test fails at the
    first element, whatever the vectors hold, so the call returns
    [(False, [False])]; under a negative one the aggregate branch never
    returns a true verdict either. *)
Theorem nonpositive_residual_tolerance_blocks (x dx residuum : list Q)
  (er ea eresiduum : Q) :
  x <> [] -> length dx = length x -> length residuum = length x ->
  eresiduum <= 0 ->
  custom_convergence_check x dx residuum er ea eresiduum
    default_vector_norm true = inr (false, [false])
  /\ (eresiduum < 0 ->
      forall detail : list bool,
        custom_convergence_check x dx residuum er ea eresiduum
          default_vector_norm false <> inr (true, detail)).
Proof.
  intros Hx Hdx Hr Hneg.
  assert (Hpos : (0 < length x)%nat) by (destruct x; [congruence | cbn; lia]).
  split.
  - rewrite debug_returns by assumption.
    assert (E0 : debug_ok_b x dx residuum er ea eresiduum
                   default_vector_norm 0 = false).
    { unfold debug_ok_b, default_vector_norm.
      destruct (Qlt_bool (Qabs (nth 0 residuum 0)) eresiduum) eqn:E;
        [| apply andb_false_r].
      apply Qlt_bool_iff in E. exfalso.
      apply (Qlt_not_le _ _ E).
      apply Qle_trans with 0; [exact Hneg | apply Qabs_nonneg]. }
    destruct (length x) as [| n]; [lia |].
    cbn [seq map existsb until_false]. rewrite E0. reflexivity.
  - intros Hlt detail Hrun.
    destruct (aggregate_spec x dx residuum er ea eresiduum
                default_vector_norm Hx Hdx) as [b [Hrun' Hb]].
    rewrite Hrun in Hrun'. injection Hrun' as Eb _.
    destruct (proj1 Hb (eq_sym Eb)) as [_ Hres].
    specialize (Hres 0%nat ltac:(lia)). unfold residual_ok in Hres.
    apply (Qlt_not_le _ _ Hlt).
    apply Qle_trans with (Qabs (nth 0 residuum 0));
      [apply Qabs_nonneg | exact Hres].
Qed.

Lemma nonpositive_residual_tolerance_blocks_witness :
  custom_convergence_check [5] [0] [0] 1 1 0 default_vector_norm true
  = inr (false, [false])
  /\ (forall detail : list bool,
        custom_convergence_check [5] [0] [0] 1 1 (-1) default_vector_norm
          false <> inr (true, detail)).
Proof.
  split.
  - apply (nonpositive_residual_tolerance_blocks [5] [0] [0] 1 1 0);
      try reflexivity; discriminate.
  - apply (nonpositive_residual_tolerance_blocks [5] [0] [0] 1 1 (-1));
      try reflexivity; discriminate.
Defined.

Lemma zip_with_repeat {B : Type} (f : Q -> Q -> B) (a : list Q) (d : Q) :
  numpy.zip_with f a (repeat d (length a)) = map (fun ai => f ai d) a.
Proof.
  induction a as [| ai a IH]; [reflexivity |]. cbn. now rewrite IH.
Qed.

(** X24: the aggregate branch does not reject an update of one row
    beside a longer [x]: by numpy's broadcasting it returns what it
    returns for that row repeated [len(x)] times. *)
Theorem one_row_update_is_broadcast (x residuum : list Q) (d : Q)
  (er ea eresiduum : Q) (vector_norm : Q -> Q) :
  custom_convergence_check x [d] residuum er ea eresiduum vector_norm false
  = custom_convergence_check x (repeat d (length x)) residuum
      er ea eresiduum vector_norm false.
Proof.
  unfold custom_convergence_check.
  destruct (negb (numpy.shape0 x =? 0)%nat); [| reflexivity].
  cbn [negb]. f_equal. unfold numpy.add.
  rewrite (broadcast2_same_length Qplus x (repeat d (length x)))
    by now rewrite repeat_length.
  rewrite zip_with_repeat. unfold numpy.broadcast2, numpy.shape0.
  destruct (Nat.eqb_spec (length x) (length [d])) as [E | E].
  - destruct x as [| a [| b x]]; try discriminate. reflexivity.
  - destruct x as [| a [| b x]]; reflexivity.
Qed.

(** ** calc_eps *)

Lemma calc_eps_loop_more_fuel (fuel extra : nat) (e r : PrimFloat.float) :
  calc_eps_loop fuel e = Some r -> calc_eps_loop (fuel + extra) e = Some r.
Proof.
  revert e. induction fuel as [| fuel IH]; intros e H; [discriminate |].
  cbn [calc_eps_loop Nat.add] in *.
  destruct (PrimFloat.ltb PrimFloat.zero e); [now apply IH | exact H].
Qed.

(** X25: [calc_eps] terminates, after halving 1.0 for 1075 times, and
    returns 0.0: the loop leaves only when [_eps] has underflowed to
    zero, and twice zero is zero. *)
Theorem calc_eps_returns_zero (fuel : nat) :
  (1076 <= fuel)%nat ->
  calc_eps fuel = Some PrimFloat.zero /\ calc_eps_loop 1075 PrimFloat.one = None.
Proof.
  intros H. split; [| vm_compute; reflexivity].
  replace fuel with (1076 + (fuel - 1076))%nat by lia.
  unfold calc_eps.
  rewrite (calc_eps_loop_more_fuel 1076 (fuel - 1076) PrimFloat.one
             PrimFloat.zero);
    vm_compute; reflexivity.
Qed.

Lemma calc_eps_returns_zero_witness :
  calc_eps 2000 = Some PrimFloat.zero
  /\ calc_eps_loop 1075 PrimFloat.one = None.
Proof. apply (calc_eps_returns_zero 2000). lia. Defined.


